(** * news_summary: the summary validator, the pipeline and the AP News fetcher

    A shallow embedding of [news_pipeline.py] and [crawl_apnews.py].

    - A Python [str] is a sequence of Unicode code points: [pystr := list N].
    - Values produced by [json.loads] are the inductive type [json]; a Python
      dict is an association list in insertion order.
    - Code that prints, raises or touches files runs in the monad [M]: a
      state ([world]: what was printed, and the files) and an outcome
      ([Return] or [Raise]).
    - External collaborators (the CNN fetcher, the model service, the
      template engine, the browser and the HTTP client) are fields of an
      environment record. *)

From Stdlib Require Import ZArith NArith List String Ascii Lia.
From stdpp Require Import gmap list.
Import ListNotations.

Set Default Goal Selector "!".
Set Warnings "-register-all".

(* ===================================================================== *)
(** ** Python strings, exceptions and outcomes *)
(* ===================================================================== *)

Module Py.

(** A Python string: its code points, in order. *)
Definition pystr : Type := list N.

(** The code point of an ASCII character of this file. *)
Definition chr (a : ascii) : N := N_of_ascii a.
Arguments chr : simpl never.

(** A literal of this file as a Python string (ASCII text). *)
Definition str (s : string) : pystr := map chr (list_ascii_of_string s).
Arguments str : simpl never.

(** The double quote, U+0022. *)
Definition dquote : N := 34%N.

(** JSON text written with ' standing for the double quote. *)
Definition jtext (s : string) : pystr :=
  map (fun c => if (c =? chr "'")%N then dquote else c) (str s).

(** The exception classes that occur in the two source files. *)
Inductive exn : Type :=
| JSONDecodeError
| RecursionError
| TypeError
| KeyError
| ValueError
| FileNotFoundError
| OSError
| TemplateError
| WebDriverException
| TimeoutException
| RequestException
| ServiceError.

(** The outcome of a call: a value, or an exception on its way up. *)
Inductive result (A : Type) : Type :=
| Return (a : A)
| Raise (e : exn).
Arguments Return {A} a.
Arguments Raise {A} e.

Definition returned {A} (r : result A) : bool :=
  match r with Return _ => true | Raise _ => false end.

(** [s[:n]] for [n >= 0]. *)
Definition slice_to (n : nat) (s : pystr) : pystr := firstn n s.

(** [s.startswith(p)], returning what follows the prefix. *)
Fixpoint strip_prefix (p s : pystr) : option pystr :=
  match p with
  | [] => Some s
  | c :: p' =>
      match s with
      | [] => None
      | d :: s' => if (c =? d)%N then strip_prefix p' s' else None
      end
  end.

Definition startswith (p s : pystr) : bool :=
  match strip_prefix p s with Some _ => true | None => false end.

(** [p in s] for two strings: [p] occurs in [s] as a substring. *)
Fixpoint str_contains (p s : pystr) : bool :=
  startswith p s ||
  match s with
  | [] => false
  | _ :: s' => str_contains p s'
  end.

(** [a == b] on strings. *)
Definition str_eqb (a b : pystr) : bool := bool_decide (a = b).

(** [sep.join(parts)]. *)
Fixpoint join (sep : pystr) (parts : list pystr) : pystr :=
  match parts with
  | [] => []
  | [p] => p
  | p :: rest => p ++ sep ++ join sep rest
  end.

(** [s.replace(old, new)] for a one-character [old]. *)
Definition replace_char (old : N) (new : pystr) (s : pystr) : pystr :=
  flat_map (fun c => if (c =? old)%N then new else [c]) s.

End Py.
Import Py.
Arguments chr : simpl never.
Arguments str : simpl never.

(* ===================================================================== *)
(** ** JSON values and [json.loads] *)
(* ===================================================================== *)

Module Json.

(** What [json.loads] builds.  A float keeps the text it was read from:
    the program never computes with it. *)
Inductive json : Type :=
| JNull
| JBool (b : bool)
| JInt (n : Z)
| JFloat (lexeme : pystr)
| JStr (s : pystr)
| JList (items : list json)
| JDict (pairs : list (pystr * json)).

(** *** dict operations, insertion ordered *)

(** [key in d]. *)
Definition dict_has (key : pystr) (d : list (pystr * json)) : bool :=
  existsb (fun kv => str_eqb (fst kv) key) d.

(** [d.get(key)]. *)
Fixpoint dict_get (key : pystr) (d : list (pystr * json)) : option json :=
  match d with
  | [] => None
  | (k, v) :: d' => if str_eqb k key then Some v else dict_get key d'
  end.

(** [d[key] = v]: a present key keeps its place, a new one goes last. *)
Fixpoint dict_set (key : pystr) (v : json) (d : list (pystr * json))
  : list (pystr * json) :=
  match d with
  | [] => [(key, v)]
  | (k, w) :: d' =>
      if str_eqb k key then (k, v) :: d' else (k, w) :: dict_set key v d'
  end.

(** [dict(pairs)]. *)
Definition dict_of_pairs (pairs : list (pystr * json)) : list (pystr * json) :=
  fold_left (fun d kv => dict_set (fst kv) (snd kv) d) pairs [].

(** *** the scanner *)

Definition is_ws (c : N) : bool :=
  ((c =? 32) || (c =? 9) || (c =? 10) || (c =? 13))%N.

Fixpoint skip_ws (s : pystr) : pystr :=
  match s with
  | c :: s' => if is_ws c then skip_ws s' else s
  | [] => []
  end.

Definition is_digit (c : N) : bool := ((48 <=? c) && (c <=? 57))%N.

Definition hex_value (c : N) : option N :=
  if ((48 <=? c) && (c <=? 57))%N then Some (c - 48)%N
  else if ((97 <=? c) && (c <=? 102))%N then Some (c - 87)%N
  else if ((65 <=? c) && (c <=? 70))%N then Some (c - 55)%N
  else None.

(** The four hex digits of a [\uXXXX] escape. *)
Definition decode_uXXXX (a b c d : N) : option N :=
  match hex_value a, hex_value b, hex_value c, hex_value d with
  | Some x, Some y, Some z, Some w => Some (((x * 16 + y) * 16 + z) * 16 + w)%N
  | _, _, _, _ => None
  end.

(** The one-character escapes of the decoder's BACKSLASH table. *)
Definition backslash (esc : N) : option N :=
  if (esc =? dquote)%N then Some dquote
  else if (esc =? chr "\")%N then Some (chr "\")
  else if (esc =? chr "/")%N then Some (chr "/")
  else if (esc =? chr "b")%N then Some 8%N
  else if (esc =? chr "f")%N then Some 12%N
  else if (esc =? chr "n")%N then Some 10%N
  else if (esc =? chr "r")%N then Some 13%N
  else if (esc =? chr "t")%N then Some 9%N
  else None.

Definition is_high_surrogate (u : N) : bool := ((55296 <=? u) && (u <=? 56319))%N.
Definition is_low_surrogate (u : N) : bool := ((56320 <=? u) && (u <=? 57343))%N.

(** [scanstring], strict: [s] starts after the opening quote; [chunks] are
    the characters read so far, last first.  The result is the string and
    what follows its closing quote. *)
Fixpoint scanstring (s : pystr) (chunks : pystr) : option (pystr * pystr) :=
  match s with
  | [] => None
  | c :: s1 =>
      if (c =? dquote)%N then Some (rev chunks, s1)
      else if (c =? chr "\")%N then
        match s1 with
        | [] => None
        | esc :: s2 =>
            if (esc =? chr "u")%N then
              match s2 with
              | h1 :: h2 :: h3 :: h4 :: s6 =>
                  match decode_uXXXX h1 h2 h3 h4 with
                  | None => None
                  | Some uni =>
                      match s6 with
                      | b :: u :: l1 :: l2 :: l3 :: l4 :: s12 =>
                          if is_high_surrogate uni && (b =? chr "\")%N && (u =? chr "u")%N
                          then
                            match decode_uXXXX l1 l2 l3 l4 with
                            | None => None
                            | Some uni2 =>
                                if is_low_surrogate uni2
                                then scanstring s12
                                       ((65536 + ((uni - 55296) * 1024 + (uni2 - 56320)))%N :: chunks)
                                else scanstring s6 (uni :: chunks)
                            end
                          else scanstring s6 (uni :: chunks)
                      | _ => scanstring s6 (uni :: chunks)
                      end
                  end
              | _ => None
              end
            else
              match backslash esc with
              | Some ch => scanstring s2 (ch :: chunks)
              | None => None
              end
        end
      else if (c <? 32)%N then None
      else scanstring s1 (c :: chunks)
  end.

(** The longest run of digits at the head of [s], and the rest. *)
Fixpoint span_digits (s : pystr) : pystr * pystr :=
  match s with
  | c :: s' =>
      if is_digit c then let '(ds, rest) := span_digits s' in (c :: ds, rest)
      else ([], s)
  | [] => ([], [])
  end.

Definition digits_value (ds : pystr) : Z :=
  fold_left (fun acc c => (acc * 10 + (Z.of_N c - 48))%Z) ds 0%Z.

(** The integer part of NUMBER_RE at the head of [s]: a lone 0, or a
    non-zero digit and the digits after it. *)
Definition match_integer (s : pystr) : option (pystr * pystr) :=
  match s with
  | c :: s' =>
      if (c =? chr "0")%N then Some ([c], s')
      else if is_digit c then Some (span_digits s)
      else None
  | [] => None
  end.

(** The optional fraction of NUMBER_RE: a dot and at least one digit. *)
Definition match_frac (s : pystr) : pystr * pystr :=
  match s with
  | c :: s' =>
      if (c =? chr ".")%N then
        match span_digits s' with
        | ([], _) => ([], s)
        | (ds, rest) => (c :: ds, rest)
        end
      else ([], s)
  | [] => ([], s)
  end.

(** The optional exponent of NUMBER_RE: e or E, an optional sign and at
    least one digit. *)
Definition match_exp (s : pystr) : pystr * pystr :=
  match s with
  | e :: s' =>
      if ((e =? chr "e") || (e =? chr "E"))%N then
        match s' with
        | sg :: s'' =>
            if ((sg =? chr "-") || (sg =? chr "+"))%N then
              match span_digits s'' with
              | ([], _) => ([], s)
              | (ds, rest) => (e :: sg :: ds, rest)
              end
            else
              match span_digits s' with
              | ([], _) => ([], s)
              | (ds, rest) => (e :: ds, rest)
              end
        | [] => ([], s)
        end
      else ([], s)
  | [] => ([], s)
  end.

(** NUMBER_RE at the head of [s]: an int when there is neither fraction
    nor exponent, a float otherwise. *)
Definition match_number (s : pystr) : option (json * pystr) :=
  let '(neg, s0) :=
    match s with
    | c :: s' => if (c =? chr "-")%N then (true, s') else (false, s)
    | [] => (false, s)
    end in
  match match_integer s0 with
  | None => None
  | Some (int, s1) =>
      let '(frac, s2) := match_frac s1 in
      let '(exp, s3) := match_exp s2 in
      match frac, exp with
      | [], [] =>
          Some (JInt (if neg then - digits_value int else digits_value int)%Z, s3)
      | _, _ =>
          Some (JFloat ((if neg then [chr "-"] else []) ++ int ++ frac ++ exp), s3)
      end
  end.

(** What one scanning step gives: a value and the rest of the text, a
    syntax error, or a recursion budget that ran out. *)
Inductive scan (A : Type) : Type :=
| Scanned (a : A) (rest : pystr)
| Invalid
| Starved.
Arguments Scanned {A} a rest.
Arguments Invalid {A}.
Arguments Starved {A}.

(** The constants and numbers of [scan_once]: everything but strings,
    objects and arrays. *)
Definition scan_atom (s : pystr) : scan json :=
  match strip_prefix (str "null") s with
  | Some rest => Scanned JNull rest
  | None =>
  match strip_prefix (str "true") s with
  | Some rest => Scanned (JBool true) rest
  | None =>
  match strip_prefix (str "false") s with
  | Some rest => Scanned (JBool false) rest
  | None =>
  match match_number s with
  | Some (v, rest) => Scanned v rest
  | None =>
  match strip_prefix (str "NaN") s with
  | Some rest => Scanned (JFloat (str "NaN")) rest
  | None =>
  match strip_prefix (str "Infinity") s with
  | Some rest => Scanned (JFloat (str "Infinity")) rest
  | None =>
  match strip_prefix (str "-Infinity") s with
  | Some rest => Scanned (JFloat (str "-Infinity")) rest
  | None => Invalid
  end end end end end end end.

(** [scan_once], with [JSONArray] and [JSONObject] as its two loops.
    [array_items] starts at an item, [object_members] after the opening
    quote of a key; both carry what was read so far, last first. *)
Fixpoint scan_once (fuel : nat) (s : pystr) : scan json :=
  match fuel with
  | O => Starved
  | S fuel =>
      match s with
      | [] => Invalid
      | c :: s1 =>
          if (c =? dquote)%N then
            match scanstring s1 [] with
            | Some (v, rest) => Scanned (JStr v) rest
            | None => Invalid
            end
          else if (c =? chr "{")%N then
            match skip_ws s1 with
            | d :: s2 =>
                if (d =? chr "}")%N then Scanned (JDict []) s2
                else if (d =? dquote)%N then object_members fuel s2 []
                else Invalid
            | [] => Invalid
            end
          else if (c =? chr "[")%N then
            match skip_ws s1 with
            | d :: s2 =>
                if (d =? chr "]")%N then Scanned (JList []) s2
                else array_items fuel (d :: s2) []
            | [] => Invalid
            end
          else scan_atom s
      end
  end
with array_items (fuel : nat) (s : pystr) (values : list json) : scan json :=
  match fuel with
  | O => Starved
  | S fuel =>
      match scan_once fuel s with
      | Scanned v rest =>
          match skip_ws rest with
          | d :: s2 =>
              if (d =? chr "]")%N then Scanned (JList (rev (v :: values))) s2
              else if (d =? chr ",")%N
              then array_items fuel (skip_ws s2) (v :: values)
              else Invalid
          | [] => Invalid
          end
      | Invalid => Invalid
      | Starved => Starved
      end
  end
with object_members (fuel : nat) (s : pystr) (pairs : list (pystr * json))
  : scan json :=
  match fuel with
  | O => Starved
  | S fuel =>
      match scanstring s [] with
      | None => Invalid
      | Some (key, rest) =>
          match skip_ws rest with
          | c :: s1 =>
              if (c =? chr ":")%N then
                match scan_once fuel (skip_ws s1) with
                | Scanned v rest' =>
                    match skip_ws rest' with
                    | d :: s2 =>
                        if (d =? chr "}")%N
                        then Scanned (JDict (dict_of_pairs (rev ((key, v) :: pairs)))) s2
                        else if (d =? chr ",")%N then
                          match skip_ws s2 with
                          | q :: s3 =>
                              if (q =? dquote)%N
                              then object_members fuel s3 ((key, v) :: pairs)
                              else Invalid
                          | [] => Invalid
                          end
                        else Invalid
                    | [] => Invalid
                    end
                | Invalid => Invalid
                | Starved => Starved
                end
              else Invalid
          | [] => Invalid
          end
      end
  end.

(** Recursion budget that [scan_once] cannot exhaust on [s]. *)
Definition budget (s : pystr) : nat := 2 * length s + 2.

(** [json.loads(s)] for a [str] argument: a byte order mark is refused,
    white space around the one value is skipped, anything after it is
    "Extra data".  The limits of an interpreter (the depth of its stack,
    the number of digits it converts to an int) are not part of the model:
    the budget below is always enough. *)
Definition json_loads (s : pystr) : result json :=
  match s with
  | 65279%N :: _ => Raise JSONDecodeError
  | _ =>
      match scan_once (budget s) (skip_ws s) with
      | Scanned v rest =>
          match skip_ws rest with
          | [] => Return v
          | _ :: _ => Raise JSONDecodeError
          end
      | Invalid => Raise JSONDecodeError
      | Starved => Raise RecursionError
      end
  end.

End Json.
Import Json.

(* ===================================================================== *)
(** ** Effects: the console, the files, exceptions *)
(* ===================================================================== *)

Module Effects.

(** One [print] call of the two source files, with the values that its
    message is formatted from. *)
Inductive printed : Type :=
| FieldMissing (field : pystr)        (* "{field} is not in result" *)
| CnnStart                            (* fetch_news_data, before the fetch *)
| CnnDone (n : nat)                   (* fetch_news_data, len(cnn_news) *)
| ExtractError (e : exn)              (* "Error: {str(e)}" *)
| Started (topic : pystr)             (* run_pipeline, the topic *)
| Fetching                            (* run_pipeline, step 1 *)
| Deduplicating                       (* run_pipeline, step 2 *)
| Summarising                         (* run_pipeline, step 3 *)
| Rendering                           (* run_pipeline, step 4 *)
| Finished (output_file : pystr)      (* run_pipeline, the output file *)
| ApCrawling (url : pystr)            (* get_ap_article_content, the url *)
| ApContentFailed (e : exn)           (* get_ap_article_content, except *)
| ApNothingFound                      (* get_ap_news_with_content, empty *)
| ApFound (n : nat)                   (* get_ap_news_with_content, len *)
| ApProgress (i n : nat).             (* get_ap_news_with_content, i/len *)

(** What a run can change: the console output, oldest line first, and the
    contents of the files, by path. *)
Record world : Type := World {
  stdout : list printed;
  files : gmap pystr pystr
}.

Definition M (A : Type) : Type := world -> result A * world.

Definition ret {A} (a : A) : M A := fun w => (Return a, w).

Definition raise {A} (e : exn) : M A := fun w => (Raise e, w).

Definition bind {A B} (c : M A) (k : A -> M B) : M B :=
  fun w =>
    match c w with
    | (Return a, w') => k a w'
    | (Raise e, w') => (Raise e, w')
    end.

(** A call that has an outcome and no effect. *)
Definition lift {A} (r : result A) : M A := fun w => (r, w).

(** The world after some more lines were printed. *)
Definition printing (w : world) (lines : list printed) : world :=
  {| stdout := stdout w ++ lines; files := files w |}.

Definition print (p : printed) : M unit :=
  fun w => (Return tt, printing w [p]).

(** [try: c  except <the classes handler answers to>: ...]. *)
Definition try_except {A} (c : M A) (handler : exn -> option (M A)) : M A :=
  fun w =>
    match c w with
    | (Return a, w') => (Return a, w')
    | (Raise e, w') =>
        match handler e with
        | Some h => h w'
        | None => (Raise e, w')
        end
    end.

(** [open(path, 'r').read()]. *)
Definition read_file (path : pystr) : M pystr :=
  fun w =>
    match files w !! path with
    | Some text => (Return text, w)
    | None => (Raise FileNotFoundError, w)
    end.

(** [open(path, 'w').write(text)]; [writable] says whether the open
    succeeds. *)
Definition write_file (writable : pystr -> bool) (path text : pystr) : M unit :=
  fun w =>
    if writable path
    then (Return tt, {| stdout := stdout w; files := <[path := text]> (files w) |})
    else (Raise OSError, w).

End Effects.
Import Effects.

Notation "x <- c ;; k" := (bind c (fun x => k))
  (at level 20, c at level 99, k at level 200, only parsing).
Notation "c ;; k" := (bind c (fun _ => k))
  (at level 100, k at level 200, right associativity, only parsing).

(* ===================================================================== *)
(** ** news_pipeline.py: SummaryParser *)
(* ===================================================================== *)

Module SummaryParser.

Definition required_fields : list pystr :=
  [str "topic"; str "entities"; str "summary"; str "timeline"].

(** [field in data], on whatever [json.loads] returned. *)
Definition contains (field : pystr) (data : json) : result bool :=
  match data with
  | JDict d => Return (dict_has field d)
  | JList items =>
      Return (existsb (fun x => match x with
                                | JStr s => str_eqb s field
                                | _ => false
                                end) items)
  | JStr s => Return (str_contains field s)
  | JNull | JBool _ | JInt _ | JFloat _ => Raise TypeError
  end.

(** [data[field] = v]: only a dict takes a string key. *)
Definition setitem (data : json) (field : pystr) (v : json) : result json :=
  match data with
  | JDict d => Return (JDict (dict_set field v d))
  | _ => Raise TypeError
  end.

(** The [for field in required_fields] loop. *)
Fixpoint check_fields (fields : list pystr) (data : json) : M json :=
  match fields with
  | [] => ret data
  | field :: rest =>
      present <- lift (contains field data) ;;
      if negb present then
        print (FieldMissing field) ;;
        data' <- lift (setitem data field (JStr (str "na"))) ;;
        check_fields rest data'
      else check_fields rest data
  end.

(** The dict of the [except] branch. *)
Definition all_na : json :=
  JDict [(str "topic", JStr (str "na"));
         (str "entities", JStr (str "na"));
         (str "summary", JStr (str "na"));
         (str "timeline", JStr (str "na"))].

Definition parse (text : pystr) : M json :=
  try_except
    (data <- lift (json_loads text) ;;
     check_fields required_fields data)
    (fun e => match e with
              | JSONDecodeError => Some (ret all_na)
              | _ => None
              end).

End SummaryParser.
Import SummaryParser.

(* ===================================================================== *)
(** ** Articles *)
(* ===================================================================== *)

(** The dict that a fetcher builds for an article, with its five keys. *)
Record RawArticle : Type := Article {
  title : pystr;
  url : pystr;
  content : pystr;
  publish_date : pystr;
  source : pystr
}.

(* ===================================================================== *)
(** ** news_pipeline.py: NewsSummaryPipeline *)
(* ===================================================================== *)

Module NewsSummaryPipeline.

(** What [template.render] is called with. *)
Record RenderArgs : Type := {
  r_topic : json;
  r_summary : json;
  r_entities : json;
  r_timeline : json;
  r_news_articles : list RawArticle;
  r_generated_date : pystr
}.

(** The collaborators of the pipeline, none of them in the two files:
    the CNN fetcher of [crawl_cnn], the prompt and model of the chain
    (topic and articles in, the text of the answer out), jinja2, the
    clock and the file system's say on opening a file for writing. *)
Record Env : Type := {
  get_cnn_news_with_content : pystr -> result (list RawArticle);
  llm : pystr -> list RawArticle -> result pystr;
  Template : pystr -> result unit;
  render : pystr -> RenderArgs -> result pystr;
  now : pystr;
  writable : pystr -> bool
}.

Section Pipeline.
Variable env : Env.
(** [self.topic] *)
Variable topic : pystr.

Definition fetch_news_data (topic : pystr) : M (list RawArticle) :=
  print CnnStart ;;
  cnn_news <- lift (get_cnn_news_with_content env topic) ;;
  print (CnnDone (length cnn_news)) ;;
  ret cnn_news.

(** One turn of the loop of [deduplicate_news], on the pair of
    [unique_news] and [seen_titles]. *)
Definition dedup_step (st : list RawArticle * gset pystr) (news : RawArticle)
  : list RawArticle * gset pystr :=
  let title_key := slice_to 50 (title news) in
  if decide (title_key ∉ st.2)
  then (st.1 ++ [news], st.2 ∪ {[title_key]})
  else st.

Definition deduplicate_news (news_list : list RawArticle) : list RawArticle :=
  (fold_left dedup_step news_list ([], ∅)).1.

(** [llm_chain.invoke]: the prompt and the model, then the parser. *)
Definition llm_chain_invoke (news_list : list RawArticle) : M json :=
  text <- lift (llm env topic news_list) ;;
  parse text.

(** The function falls off its end in the [except] branch: [None]. *)
Definition extract_entities_and_summary (news_list : list RawArticle) : M json :=
  try_except
    (llm_chain_invoke news_list)
    (fun e => Some (print (ExtractError e) ;; ret JNull)).

(** [processed_data[key]] for a string key. *)
Definition getitem (data : json) (key : pystr) : result json :=
  match data with
  | JDict d =>
      match dict_get key d with
      | Some v => Return v
      | None => Raise KeyError
      end
  | _ => Raise TypeError
  end.

Definition generate_html (processed_data : json) (news_list : list RawArticle)
  : M pystr :=
  template_str <- read_file (str "template.html") ;;
  lift (Template env template_str) ;;
  topic_v <- lift (getitem processed_data (str "topic")) ;;
  summary_v <- lift (getitem processed_data (str "summary")) ;;
  entities_v <- lift (getitem processed_data (str "entities")) ;;
  timeline_v <- lift (getitem processed_data (str "timeline")) ;;
  lift (render env template_str
          {| r_topic := topic_v;
             r_summary := summary_v;
             r_entities := entities_v;
             r_timeline := timeline_v;
             r_news_articles := news_list;
             r_generated_date := now env |}).

Definition run_pipeline (output_file : pystr) : M pystr :=
  print (Started topic) ;;
  print Fetching ;;
  news_data <- fetch_news_data topic ;;
  print Deduplicating ;;
  let unique_news := deduplicate_news news_data in
  print Summarising ;;
  processed_data <- extract_entities_and_summary unique_news ;;
  print Rendering ;;
  html_content <- generate_html processed_data unique_news ;;
  write_file (writable env) output_file html_content ;;
  print (Finished output_file) ;;
  ret output_file.

End Pipeline.

End NewsSummaryPipeline.
Import NewsSummaryPipeline.

(* ===================================================================== *)
(** ** crawl_apnews.py *)
(* ===================================================================== *)

Module ApNews.

Definition max_articles_count : Z := 20.

(** The [a] element of a result card: its stripped text and its [href]
    attribute, if it has one. *)
Record Anchor : Type := {
  a_text : pystr;
  a_href : option pystr
}.

(** An entry of [news_list]: the dict with the keys title and url. *)
Record Headline : Type := {
  h_title : pystr;
  h_url : pystr
}.

(** What the two selectors of [get_ap_article_content] find in an article
    page: the stripped texts of the body paragraphs, and the [content]
    attribute of the published-time [meta] element ([None] when the
    element or the attribute is missing). *)
Record ArticlePage : Type := {
  paragraphs : list pystr;
  published_time : option pystr
}.

(** The dict returned by [get_ap_article_content]. *)
Record ArticleBody : Type := {
  b_content : pystr;
  b_publish_date : pystr
}.

(** The web, as the fetcher meets it.
    - [edge]: creating the Edge driver.
    - [search topic]: loading the search page, the wait for its body, the
      two scrolls, and the cards [div.PagePromo-title] of the page source,
      each with its first [a] element if it has one.
    - [article i url]: the [i]-th request of the run, for [url], and the
      parse of the response.
    - [isodate text]: [datetime.fromisoformat(text)] formatted as
      year-month-day. *)
Record Web : Type := {
  edge : result unit;
  search : pystr -> result (list (option Anchor));
  article : nat -> pystr -> result ArticlePage;
  isodate : pystr -> result pystr
}.

Section Fetcher.
Variable web : Web.

(** The [for card in cards] loop. *)
Fixpoint collect_cards (cards : list (option Anchor)) (max_articles : Z)
  (news_list : list Headline) : result (list Headline) :=
  match cards with
  | [] => Return news_list
  | card :: rest =>
      if (Z.of_nat (length news_list) >=? max_articles)%Z
      then Return news_list
      else
        match card with
        | Some a_tag =>
            match a_href a_tag with
            | Some link =>
                collect_cards rest max_articles
                  (news_list ++ [{| h_title := a_text a_tag; h_url := link |}])
            | None => Raise KeyError
            end
        | None => collect_cards rest max_articles news_list
        end
  end.

(** The driver is created before the [try]; the [try] has a [finally]
    (quitting the driver, which changes nothing here) and no [except]. *)
Definition get_ap_news_list_selenium (topic : pystr) (max_articles : Z)
  : M (list Headline) :=
  lift (edge web) ;;
  cards <- lift (search web topic) ;;
  lift (collect_cards cards max_articles []).

Definition get_ap_article_content (i : nat) (url : pystr) : M ArticleBody :=
  try_except
    (print (ApCrawling url) ;;
     page <- lift (article web i url) ;;
     let content := join (str " ") (paragraphs page) in
     publish_date <-
       match published_time page with
       | Some (c :: t) =>
           lift (isodate web (replace_char (chr "Z") (str "+00:00") (c :: t)))
       | _ => ret []
       end ;;
     ret {| b_content := content; b_publish_date := publish_date |})
    (fun e => Some (print (ApContentFailed e) ;;
                    ret {| b_content := []; b_publish_date := [] |})).

(** The [for i, news in enumerate(news_list, 1)] loop; [n] is
    [len(news_list)]. *)
Fixpoint crawl_details (n i : nat) (news_list : list Headline)
  (detailed : list RawArticle) : M (list RawArticle) :=
  match news_list with
  | [] => ret detailed
  | news :: rest =>
      print (ApProgress i n) ;;
      article <- get_ap_article_content i (h_url news) ;;
      crawl_details n (S i) rest
        (match b_content article with
         | [] => detailed
         | _ :: _ =>
             detailed ++ [{| title := h_title news;
                             url := h_url news;
                             content := b_content article;
                             publish_date := b_publish_date article;
                             source := str "AP News" |}]
         end)
  end.

Definition get_ap_news_with_content (topic : pystr) (max_articles : Z)
  : M (list RawArticle) :=
  news_list <- get_ap_news_list_selenium topic max_articles ;;
  match news_list with
  | [] => print ApNothingFound ;; ret []
  | _ :: _ =>
      print (ApFound (length news_list)) ;;
      crawl_details (length news_list) 1 news_list []
  end.

End Fetcher.

End ApNews.
Import ApNews.

(* ===================================================================== *)
(** ** Definitions used to state and prove the properties *)
(* ===================================================================== *)

(** The dedup key of an article: [news['title'][:50]]. *)
Definition title_key (news : RawArticle) : pystr := slice_to 50 (title news).

(** [has_key k news]: the article has the dedup key [k]. *)
Definition has_key (k : pystr) (news : RawArticle) : bool :=
  bool_decide (title_key news = k).

(** The articles of [news_list] that the loop of [deduplicate_news] appends
    when it starts with the keys [seen]. *)
Fixpoint keep_new (seen : gset pystr) (news_list : list RawArticle)
  : list RawArticle :=
  match news_list with
  | [] => []
  | news :: rest =>
      if decide (title_key news ∈ seen) then keep_new seen rest
      else news :: keep_new (seen ∪ {[title_key news]}) rest
  end.

(** The required fields that the dict [d] lacks, in the order of
    [required_fields]. *)
Definition missing_fields (d : list (pystr * json)) : list pystr :=
  filter (λ field, dict_has field d = false) required_fields.

(** [d] with an entry "na" for each of its missing required fields. *)
Definition completed (d : list (pystr * json)) : list (pystr * json) :=
  d ++ map (λ field, (field, JStr (str "na"))) (missing_fields d).

(** The record that the specification calls StructuredSummary: a mapping
    with exactly the four required keys, each holding a string. *)
Definition is_structured_summary (v : json) : bool :=
  match v with
  | JDict d =>
      (length d =? 4)%nat
      && forallb (λ field, match dict_get field d with
                           | Some (JStr _) => true
                           | _ => false
                           end) required_fields
  | _ => false
  end.

(** A string that needs no escape in JSON text: no double quote, no
    backslash, no control character. *)
Definition plain (s : pystr) : Prop :=
  Forall (λ c, c ≠ dquote ∧ c ≠ chr "\" ∧ (32 ≤ c)%N) s.

(** The JSON text of an object with the four required keys, in the order
    of the specification's example, for values that need no escape. *)
Definition summary_text (X Y Z W : pystr) : pystr :=
  jtext "{'topic':'" ++ X ++ jtext "','entities':'" ++ Y
  ++ jtext "','summary':'" ++ Z ++ jtext "','timeline':'" ++ W ++ jtext "'}".

(** The entry of [news_list] that a result card gives, when it has a link
    with an [href]. *)
Definition card_headline (card : option Anchor) : option Headline :=
  match card with
  | Some a_tag =>
      match a_href a_tag with
      | Some link => Some {| h_title := a_text a_tag; h_url := link |}
      | None => None
      end
  | None => None
  end.

(** A console with nothing on it and no file but the template. *)
Definition fresh_world : world :=
  {| stdout := []; files := {[ str "template.html" := str "<html>{{ topic }}</html>" ]} |}.

(** An environment for examples: the fetcher returns [fetched], the model
    answers [answer], every template is accepted, rendering puts the topic
    between two tags, and every file can be written. *)
Definition example_env (fetched : list RawArticle) (answer : result pystr) : Env :=
  {| get_cnn_news_with_content := λ _, Return fetched;
     llm := λ _ _, answer;
     Template := λ _, Return tt;
     render := λ _ args,
       Return (str "<h1>"
               ++ match r_topic args with JStr t => t | _ => [] end
               ++ str "</h1>");
     now := str "2025-01-01 00:00";
     writable := λ _, true |}.

(** A web in which the search page never finishes loading: the wait for
    its body times out. *)
Definition timeout_web : Web :=
  {| edge := Return tt;
     search := λ _, Raise TimeoutException;
     article := λ _ _, Raise RequestException;
     isodate := λ _, Raise ValueError |}.

(** A web with three result cards, the second without a link; the page of
    the first article has a body and a date, the page of the other has no
    body paragraph. *)
Definition example_web : Web :=
  {| edge := Return tt;
     search := λ _,
       Return [Some {| a_text := str "Alpha wins award";
                       a_href := Some (str "https://apnews.com/article/a") |};
               None;
               Some {| a_text := str "Beta loses";
                       a_href := Some (str "https://apnews.com/article/b") |}];
     article := λ i _,
       match i with
       | 1 => Return {| paragraphs := [str "Alpha won."; str "More soon."];
                        published_time := Some (str "2025-01-02T03:04:05Z") |}
       | _ => Return {| paragraphs := []; published_time := None |}
       end;
     isodate := λ text, Return (slice_to 10 text) |}.

(* ===================================================================== *)
(** ** The decoder always answers *)
(* ===================================================================== *)

Example json_loads_number : json_loads (str "5") = Return (JInt 5).
Proof. vm_compute. reflexivity. Qed.

Example json_loads_object :
  json_loads (jtext "{'topic': 'X', 'n': [1, -2.5e3, true, null], 'u': '\u00e9\ud83d\ude00'}")
  = Return (JDict [(str "topic", JStr (str "X"));
                   (str "n", JList [JInt 1; JFloat (str "-2.5e3"); JBool true; JNull]);
                   (str "u", JStr [233%N; 128512%N])]).
Proof. vm_compute. reflexivity. Qed.

Example json_loads_last_key_wins :
  json_loads (jtext "{'a': 1, 'b': 2, 'a': 3}")
  = Return (JDict [(str "a", JInt 3); (str "b", JInt 2)]).
Proof. vm_compute. reflexivity. Qed.

Example json_loads_trailing_comma :
  json_loads (jtext "{'topic': 'X',}") = Raise JSONDecodeError.
Proof. vm_compute. reflexivity. Qed.

Example json_loads_extra_data :
  json_loads (str "[1] 2") = Raise JSONDecodeError.
Proof. vm_compute. reflexivity. Qed.

Section Decoder.

Implicit Types (s rest : pystr).

Lemma skip_ws_length s : length (skip_ws s) ≤ length s.
Proof.
  induction s as [|c s IH]; simpl; [done|].
  destruct (is_ws c); simpl; lia.
Qed.

Lemma strip_prefix_length p : ∀ s rest,
  strip_prefix p s = Some rest → length rest + length p = length s.
Proof.
  induction p as [|c p IH]; intros s rest; simpl.
  - intros [= ->]. lia.
  - destruct s as [|d s]; [done|].
    destruct (c =? d)%N; [|done].
    intros H%IH. simpl. lia.
Qed.

Lemma scanstring_length n : ∀ s chunks v rest,
  length s ≤ n → scanstring s chunks = Some (v, rest) → length rest < length s.
Proof.
  induction n as [|n IH]; intros s chunks v rest Hn.
  - destruct s; [done|simpl in Hn; lia].
  - destruct s as [|c s1]; [done|]. simpl in Hn. simpl.
    repeat (case_match; try done); subst;
      try (intros [= <- <-]; simpl; lia);
      intros Hr; apply IH in Hr; simpl in *; lia.
Qed.

Lemma span_digits_length s : ∀ ds rest,
  span_digits s = (ds, rest) → length ds + length rest = length s.
Proof.
  induction s as [|c s IH]; intros ds rest; simpl.
  - by intros [= <- <-].
  - destruct (is_digit c).
    + destruct (span_digits s) as [ds' rest'].
      intros [= <- <-]. simpl. by rewrite (IH ds' rest').
    + by intros [= <- <-].
Qed.

Lemma match_frac_length s frac rest :
  match_frac s = (frac, rest) → length rest ≤ length s.
Proof.
  unfold match_frac.
  repeat case_match; intros [= <- <-]; simpl; try lia.
  match goal with H : span_digits _ = _ |- _ =>
    apply span_digits_length in H; simpl in H; lia end.
Qed.

Lemma match_exp_length s exp rest :
  match_exp s = (exp, rest) → length rest ≤ length s.
Proof.
  unfold match_exp.
  repeat case_match; intros [= <- <-]; simpl; try lia;
  match goal with H : span_digits _ = _ |- _ =>
    apply span_digits_length in H; simpl in H; lia end.
Qed.

Lemma match_integer_length s int rest :
  match_integer s = Some (int, rest) → length rest < length s.
Proof.
  unfold match_integer.
  destruct s as [|c s]; [done|].
  destruct (c =? chr "0")%N; [intros [= <- <-]; simpl; lia|].
  destruct (is_digit c) eqn:Hd; [|done].
  intros [= H]. simpl in H. rewrite Hd in H.
  destruct (span_digits s) as [ds r] eqn:Hs. injection H as <- <-.
  apply span_digits_length in Hs. simpl. lia.
Qed.

Lemma match_number_length s v rest :
  match_number s = Some (v, rest) → length rest < length s.
Proof.
  unfold match_number.
  destruct (match s with
            | [] => (false, s)
            | c :: s' => if (c =? chr "-")%N then (true, s') else (false, s)
            end) as [neg s0] eqn:Hs0.
  assert (length s0 ≤ length s) as Hle.
  { destruct s as [|c s']; [by injection Hs0 as <- <-|].
    destruct (c =? chr "-")%N; injection Hs0 as <- <-; simpl; lia. }
  destruct (match_integer s0) as [[int s1]|] eqn:Hint; [|done].
  apply match_integer_length in Hint.
  destruct (match_frac s1) as [frac s2] eqn:Hfrac.
  apply match_frac_length in Hfrac.
  destruct (match_exp s2) as [exp s3] eqn:Hexp.
  apply match_exp_length in Hexp.
  destruct frac, exp; intros [= <- <-]; lia.
Qed.

Lemma scan_atom_length s v rest :
  scan_atom s = Scanned v rest → length rest < length s.
Proof.
  unfold scan_atom.
  repeat case_match; try done; intros [= <- <-];
    try (match goal with H : strip_prefix _ _ = Some _ |- _ =>
           apply strip_prefix_length in H; simpl in H; lia end).
  match goal with H : match_number _ = Some _ |- _ =>
    by apply match_number_length in H end.
Qed.

(** Every scanning function consumes at least one character. *)
Lemma scan_consumes fuel :
  (∀ s v rest, scan_once fuel s = Scanned v rest → length rest < length s)
  ∧ (∀ s vs v rest, array_items fuel s vs = Scanned v rest → length rest < length s)
  ∧ (∀ s ps v rest, object_members fuel s ps = Scanned v rest → length rest < length s).
Proof.
  induction fuel as [|fuel (IHv & IHa & IHo)]; [by split_and!|].
  split_and!.
  - intros s v rest. simpl.
    destruct s as [|c s1]; [done|].
    destruct (c =? dquote)%N.
    { destruct (scanstring s1 []) as [[w r]|] eqn:Hs; [|done].
      intros [= <- <-]. apply scanstring_length with (n := length s1) in Hs; simpl; lia. }
    destruct (c =? chr "{")%N.
    { pose proof (skip_ws_length s1).
      destruct (skip_ws s1) as [|d s2]; [done|]. simpl in *.
      destruct (d =? chr "}")%N; [intros [= <- <-]; lia|].
      destruct (d =? dquote)%N; [|done].
      intros H'%IHo. lia. }
    destruct (c =? chr "[")%N.
    { pose proof (skip_ws_length s1).
      destruct (skip_ws s1) as [|d s2]; [done|]. simpl in *.
      destruct (d =? chr "]")%N; [intros [= <- <-]; lia|].
      intros H'%IHa. simpl in H'. lia. }
    apply scan_atom_length.
  - intros s vs v rest. simpl.
    destruct (scan_once fuel s) as [w r| |] eqn:Hw; [|done..].
    apply IHv in Hw. pose proof (skip_ws_length r).
    destruct (skip_ws r) as [|d s2]; [done|]. simpl in *.
    destruct (d =? chr "]")%N; [intros [= <- <-]; lia|].
    destruct (d =? chr ",")%N; [|done].
    intros H'%IHa. pose proof (skip_ws_length s2). lia.
  - intros s ps v rest. simpl.
    destruct (scanstring s []) as [[key r]|] eqn:Hs; [|done].
    apply scanstring_length with (n := length s) in Hs; [|done].
    pose proof (skip_ws_length r).
    destruct (skip_ws r) as [|c s1]; [done|]. simpl in *.
    destruct (c =? chr ":")%N; [|done].
    destruct (scan_once fuel (skip_ws s1)) as [w r'| |] eqn:Hw; [|done..].
    apply IHv in Hw. pose proof (skip_ws_length s1). pose proof (skip_ws_length r').
    destruct (skip_ws r') as [|d s2]; [done|]. simpl in *.
    destruct (d =? chr "}")%N; [intros [= <- <-]; lia|].
    destruct (d =? chr ",")%N; [|done].
    pose proof (skip_ws_length s2).
    destruct (skip_ws s2) as [|q s3]; [done|]. simpl in *.
    destruct (q =? dquote)%N; [|done].
    intros H'%IHo. lia.
Qed.

(** A budget of twice the length of the text, and a little, is never
    exhausted. *)
Lemma scan_not_starved fuel :
  (∀ s, 2 * length s < fuel → scan_once fuel s ≠ Starved)
  ∧ (∀ s vs, 2 * length s + 1 < fuel → array_items fuel s vs ≠ Starved)
  ∧ (∀ s ps, 2 * length s + 1 < fuel → object_members fuel s ps ≠ Starved).
Proof.
  induction fuel as [|fuel (IHv & IHa & IHo)]; [split_and!; intros; lia|].
  destruct (scan_consumes fuel) as (Cv & Ca & Co).
  split_and!.
  - intros s Hf. simpl.
    destruct s as [|c s1]; [done|]. simpl in Hf.
    destruct (c =? dquote)%N.
    { by destruct (scanstring s1 []) as [[w r]|]. }
    destruct (c =? chr "{")%N.
    { pose proof (skip_ws_length s1).
      destruct (skip_ws s1) as [|d s2]; [done|]. simpl in *.
      destruct (d =? chr "}")%N; [done|].
      destruct (d =? dquote)%N; [|done].
      apply IHo. lia. }
    destruct (c =? chr "[")%N.
    { pose proof (skip_ws_length s1).
      destruct (skip_ws s1) as [|d s2]; [done|]. simpl in *.
      destruct (d =? chr "]")%N; [done|].
      apply IHa. simpl. lia. }
    unfold scan_atom. by repeat case_match.
  - intros s vs Hf. simpl.
    destruct (scan_once fuel s) as [w r| |] eqn:Hw; [|done|].
    + apply Cv in Hw. pose proof (skip_ws_length r).
      destruct (skip_ws r) as [|d s2]; [done|]. simpl in *.
      destruct (d =? chr "]")%N; [done|].
      destruct (d =? chr ",")%N; [|done].
      apply IHa. pose proof (skip_ws_length s2). lia.
    + exfalso. revert Hw. apply IHv. lia.
  - intros s ps Hf. simpl.
    destruct (scanstring s []) as [[key r]|] eqn:Hs; [|done].
    apply scanstring_length with (n := length s) in Hs; [|done].
    pose proof (skip_ws_length r).
    destruct (skip_ws r) as [|c s1]; [done|]. simpl in *.
    destruct (c =? chr ":")%N; [|done].
    pose proof (skip_ws_length s1).
    destruct (scan_once fuel (skip_ws s1)) as [w r'| |] eqn:Hw; [|done|].
    + apply Cv in Hw. pose proof (skip_ws_length r').
      destruct (skip_ws r') as [|d s2]; [done|]. simpl in *.
      destruct (d =? chr "}")%N; [done|].
      destruct (d =? chr ",")%N; [|done].
      pose proof (skip_ws_length s2).
      destruct (skip_ws s2) as [|q s3]; [done|]. simpl in *.
      destruct (q =? dquote)%N; [|done].
      apply IHo. lia.
    + exfalso. revert Hw. apply IHv. lia.
Qed.

(** [json.loads] returns a value or raises [JSONDecodeError]. *)
Lemma json_loads_outcome s :
  (∃ v, json_loads s = Return v) ∨ json_loads s = Raise JSONDecodeError.
Proof.
  assert (scan_once (budget s) (skip_ws s) ≠ Starved) as Hns.
  { apply scan_not_starved. pose proof (skip_ws_length s). unfold budget. lia. }
  unfold json_loads.
  destruct (scan_once (budget s) (skip_ws s)) as [v r| |]; [| |done].
  - destruct (skip_ws r); repeat case_match; eauto.
  - repeat case_match; eauto.
Qed.

(** A string without escapes is read up to its closing quote. *)
Lemma scanstring_plain s : ∀ rest chunks,
  plain s → scanstring (s ++ dquote :: rest) chunks = Some (rev chunks ++ s, rest).
Proof.
  induction s as [|c s IH]; intros rest chunks Hp; simpl.
  - by rewrite app_nil_r.
  - apply Forall_cons in Hp as [(Hq & Hb & Hc) Hp].
    rewrite (proj2 (N.eqb_neq c dquote)) by done.
    rewrite (proj2 (N.eqb_neq c (chr "\"))) by done.
    rewrite (proj2 (N.ltb_ge c 32)) by done.
    rewrite IH by done. simpl. by rewrite <- app_assoc.
Qed.

Lemma scan_once_summary_text fuel X Y Z W rest :
  plain X → plain Y → plain Z → plain W →
  scan_once (6 + fuel) (summary_text X Y Z W ++ rest)
  = Scanned (JDict [(str "topic", JStr X); (str "entities", JStr Y);
                    (str "summary", JStr Z); (str "timeline", JStr W)]) rest.
Proof.
  intros HX HY HZ HW. unfold summary_text.
  repeat match goal with
  | |- context [jtext ?s] =>
      let v := eval vm_compute in (jtext s) in change (jtext s) with v
  end.
  rewrite <- !app_assoc. simpl.
  rewrite (scanstring_plain X) by done. simpl.
  rewrite (scanstring_plain Y) by done. simpl.
  rewrite (scanstring_plain Z) by done. simpl.
  rewrite (scanstring_plain W) by done. simpl.
  reflexivity.
Qed.

(** The text of the four fields decodes to the dict of the four fields. *)
Lemma json_loads_summary_text X Y Z W :
  plain X → plain Y → plain Z → plain W →
  json_loads (summary_text X Y Z W)
  = Return (JDict [(str "topic", JStr X); (str "entities", JStr Y);
                   (str "summary", JStr Z); (str "timeline", JStr W)]).
Proof.
  intros HX HY HZ HW.
  pose proof (scan_once_summary_text (budget (summary_text X Y Z W) - 6) X Y Z W []
                HX HY HZ HW) as Hscan.
  rewrite app_nil_r in Hscan.
  assert (6 ≤ budget (summary_text X Y Z W)) as Hb.
  { unfold budget, summary_text. rewrite !length_app. simpl. lia. }
  replace (6 + (budget (summary_text X Y Z W) - 6))
    with (budget (summary_text X Y Z W)) in Hscan by lia.
  unfold json_loads.
  assert (∃ t, summary_text X Y Z W = chr "{" :: t) as [t Ht].
  { unfold summary_text. by eexists. }
  rewrite Ht in *. simpl skip_ws. rewrite Hscan. reflexivity.
Qed.

End Decoder.

(* ===================================================================== *)
(** ** The deduplicator *)
(* ===================================================================== *)

Section Dedup.

Implicit Types (l : list RawArticle) (seen : gset pystr).

Lemma dedup_loop l : ∀ st,
  (fold_left dedup_step l st).1 = st.1 ++ keep_new st.2 l.
Proof.
  induction l as [|a l IH]; intros [acc seen]; simpl.
  - by rewrite app_nil_r.
  - rewrite IH. unfold dedup_step. fold (title_key a). simpl.
    destruct (decide (title_key a ∉ seen)) as [Hn|Hn];
      destruct (decide (title_key a ∈ seen)) as [Hi|Hi]; simpl; try done.
    by rewrite <- app_assoc.
Qed.

Lemma deduplicate_news_keep_new l : deduplicate_news l = keep_new ∅ l.
Proof. unfold deduplicate_news. by rewrite dedup_loop. Qed.

Lemma keep_new_sublist l : ∀ seen, keep_new seen l `sublist_of` l.
Proof.
  induction l as [|a l IH]; intros seen; simpl; [constructor|].
  destruct (decide (title_key a ∈ seen)).
  - by apply sublist_cons.
  - by apply sublist_skip.
Qed.

Lemma keep_new_fresh l : ∀ seen a, a ∈ keep_new seen l → title_key a ∉ seen.
Proof.
  induction l as [|b l IH]; intros seen a; simpl; [by intros ?%elem_of_nil|].
  destruct (decide (title_key b ∈ seen)) as [Hb|Hb]; [by apply IH|].
  intros [->|Ha]%elem_of_cons; [done|].
  apply IH in Ha. set_solver.
Qed.

Lemma keep_new_NoDup l : ∀ seen, NoDup (title_key <$> keep_new seen l).
Proof.
  induction l as [|b l IH]; intros seen; simpl; [constructor|].
  destruct (decide (title_key b ∈ seen)) as [Hb|Hb]; [by apply IH|].
  rewrite fmap_cons. constructor; [|by apply IH].
  intros (a & Heq & Ha)%list_elem_of_fmap.
  apply keep_new_fresh in Ha. set_solver.
Qed.

Lemma keep_new_find l : ∀ seen k,
  k ∉ seen → find (has_key k) (keep_new seen l) = find (has_key k) l.
Proof.
  induction l as [|b l IH]; intros seen k Hk; simpl; [done|].
  destruct (decide (title_key b ∈ seen)) as [Hb|Hb].
  - rewrite IH by done. unfold has_key at 2.
    rewrite bool_decide_eq_false_2; [done|].
    intros Heq. apply Hk. by rewrite <- Heq.
  - simpl. unfold has_key at 1 3.
    destruct (bool_decide_reflect (title_key b = k)) as [Heq|Hne]; [done|].
    apply IH. rewrite elem_of_union, elem_of_singleton. by intros [?|?].
Qed.

(** A list whose keys are distinct and new is kept whole. *)
Lemma keep_new_id l : ∀ seen,
  NoDup (title_key <$> l) → (∀ a, a ∈ l → title_key a ∉ seen) →
  keep_new seen l = l.
Proof.
  induction l as [|b l IH]; intros seen Hnd Hfresh; simpl; [done|].
  rewrite fmap_cons in Hnd. apply NoDup_cons in Hnd as [Hb Hnd].
  destruct (decide (title_key b ∈ seen)) as [Hin|Hin].
  - exfalso. apply (Hfresh b); [apply elem_of_cons; by left|done].
  - f_equal. apply IH; [done|].
    intros a Ha. specialize (Hfresh a). rewrite elem_of_cons in Hfresh.
    intros [Hs|Hs%elem_of_singleton]%elem_of_union.
    + apply Hfresh; [by right|done].
    + apply Hb. rewrite <- Hs. apply list_elem_of_fmap. by exists a.
Qed.

End Dedup.

(** Two titles that agree on their first 50 characters and differ on the
    51st collapse, and the first article wins; two short titles of which one
    is a prefix of the other do not. *)
Example deduplicate_news_collapses :
  let a := {| title := str "01234567890123456789012345678901234567890123456789 first";
              url := str "https://a.example/1"; content := str "one";
              publish_date := str "2025-01-01"; source := str "A" |} in
  let b := {| title := str "01234567890123456789012345678901234567890123456789 second";
              url := str "https://b.example/2"; content := str "two";
              publish_date := str "2025-01-02"; source := str "B" |} in
  deduplicate_news [a; b; a] = [a] ∧ deduplicate_news [b; a] = [b].
Proof. split; vm_compute; reflexivity. Qed.

Example deduplicate_news_short_titles :
  let a := {| title := str "Alpha wins award";
              url := str "https://a.example/1"; content := str "one";
              publish_date := str "2025-01-01"; source := str "A" |} in
  let b := {| title := str "Alpha wins award today";
              url := str "https://b.example/2"; content := str "two";
              publish_date := str "2025-01-02"; source := str "B" |} in
  let e := {| title := []; url := []; content := []; publish_date := [];
              source := [] |} in
  deduplicate_news [a; b] = [a; b]
  ∧ deduplicate_news [e; a; e] = [e; a]
  ∧ deduplicate_news [] = [].
Proof. split_and!; vm_compute; reflexivity. Qed.

(** C3. The dedup key of an article is the first 50 characters of its
    title, the whole title when it is shorter.  For every list of articles,
    the output of [deduplicate_news] has pairwise distinct dedup keys (at
    most one article per key); for every key, the article with that key in
    the output is the first article with that key in the input (so every
    key of the input is retained, by its first occurrence); the output is a
    subsequence of the input (same relative order, every retained article
    is an article of the input, unchanged); and the output is not longer
    than the input. *)
Theorem deduplicate_news_first_occurrences (news_list : list RawArticle) :
  (∀ news, title_key news = take 50 (title news)
           ∧ (length (title news) ≤ 50 → title_key news = title news))
  ∧ NoDup (title_key <$> deduplicate_news news_list)
  ∧ (∀ k, find (has_key k) (deduplicate_news news_list)
          = find (has_key k) news_list)
  ∧ deduplicate_news news_list `sublist_of` news_list
  ∧ (∀ news, news ∈ deduplicate_news news_list → news ∈ news_list)
  ∧ length (deduplicate_news news_list) ≤ length news_list.
Proof.
  rewrite deduplicate_news_keep_new.
  pose proof (keep_new_sublist news_list ∅) as Hsub.
  split_and!.
  - intros news. split; [done|]. intros Hlen. by apply take_ge.
  - apply keep_new_NoDup.
  - intros k. apply keep_new_find. set_solver.
  - done.
  - intros news Hin. by apply (sublist_subseteq _ _ Hsub).
  - by apply sublist_length.
Qed.

(** C7. Deduplicating twice is the same as deduplicating once. *)
Theorem deduplicate_news_idempotent (news_list : list RawArticle) :
  deduplicate_news (deduplicate_news news_list) = deduplicate_news news_list.
Proof.
  rewrite !deduplicate_news_keep_new.
  apply keep_new_id.
  - apply keep_new_NoDup.
  - intros a _. set_solver.
Qed.

(* ===================================================================== *)
(** ** The summary validator *)
(* ===================================================================== *)

Create HintDb monad_ops.
#[local] Hint Unfold bind ret raise lift print try_except read_file write_file
  : monad_ops.

Ltac run_monad := autounfold with monad_ops; simpl.

Section Validator.

Implicit Types (d : list (pystr * json)) (w : world) (text field : pystr).

Lemma str_eqb_eq (a b : pystr) : str_eqb a b = true ↔ a = b.
Proof. unfold str_eqb. apply bool_decide_eq_true. Qed.

Lemma str_eqb_neq (a b : pystr) : str_eqb a b = false ↔ a ≠ b.
Proof. unfold str_eqb. apply bool_decide_eq_false. Qed.

Lemma dict_has_get key d : dict_has key d = true ↔ is_Some (dict_get key d).
Proof.
  induction d as [|[k v] d IH]; simpl.
  - split; [done|by intros [? ?]].
  - destruct (str_eqb k key); simpl; [|done].
    split; [by eexists|done].
Qed.

(** Setting a key that the dict lacks adds it at the end. *)
Lemma dict_set_new key v d :
  dict_has key d = false → dict_set key v d = d ++ [(key, v)].
Proof.
  induction d as [|[k u] d IH]; simpl; [done|].
  destruct (str_eqb k key); simpl; [done|].
  intros H%IH. by rewrite H.
Qed.

Lemma dict_has_app key d1 d2 :
  dict_has key (d1 ++ d2) = dict_has key d1 || dict_has key d2.
Proof. unfold dict_has. apply existsb_app. Qed.

Lemma dict_get_app key d1 d2 :
  dict_get key (d1 ++ d2)
  = match dict_get key d1 with Some v => Some v | None => dict_get key d2 end.
Proof.
  induction d1 as [|[k v] d1 IH]; simpl; [done|].
  by destruct (str_eqb k key).
Qed.

Lemma filter_ext_elem_of {A} (P Q : A → Prop)
  `{!∀ x, Decision (P x), !∀ x, Decision (Q x)} (l : list A) :
  (∀ x, x ∈ l → P x ↔ Q x) → filter P l = filter Q l.
Proof.
  induction l as [|x l IH]; intros Hext; [done|].
  rewrite !filter_cons.
  rewrite IH by (intros y Hy; apply Hext; by right).
  destruct (decide (P x)) as [HP|HP]; destruct (decide (Q x)) as [HQ|HQ];
    try done; exfalso; apply (Hext x) in HP || apply (Hext x) in HQ;
    done || by left.
Qed.

(** The loop on a dict: the missing fields are reported and added, one
    after the other. *)
Lemma check_fields_dict fields : ∀ d w,
  NoDup fields →
  check_fields fields (JDict d) w
  = (Return (JDict (d ++ map (λ field, (field, JStr (str "na")))
                            (filter (λ field, dict_has field d = false) fields))),
     {| stdout := stdout w ++ map FieldMissing
                                (filter (λ field, dict_has field d = false) fields);
        files := files w |}).
Proof.
  induction fields as [|f fields IH]; intros d w Hnd.
  - simpl. run_monad. rewrite !app_nil_r. by destruct w.
  - apply NoDup_cons in Hnd as [Hf Hnd].
    simpl. run_monad.
    destruct (dict_has f d) eqn:Hhas; simpl.
    + rewrite IH by done. rewrite filter_cons_False; [done|by rewrite Hhas].
    + rewrite IH by done. simpl.
      rewrite filter_cons_True by done.
      rewrite (dict_set_new _ _ _ Hhas).
      assert (filter (λ field, dict_has field (d ++ [(f, JStr (str "na"))]) = false) fields
              = filter (λ field, dict_has field d = false) fields) as ->.
      { apply filter_ext_elem_of. intros g Hg.
        rewrite dict_has_app. simpl.
        destruct (str_eqb f g) eqn:Hfg.
        - apply str_eqb_eq in Hfg. by subst.
        - by rewrite !orb_false_r. }
      simpl. by rewrite <- !app_assoc.
Qed.

Lemma required_fields_NoDup : NoDup required_fields.
Proof. apply (bool_decide_unpack _). by vm_compute. Qed.

(** [parse] when the text decodes to an object. *)
Lemma parse_dict text d w :
  json_loads text = Return (JDict d) →
  parse text w
  = (Return (JDict (completed d)),
     {| stdout := stdout w ++ map FieldMissing (missing_fields d);
        files := files w |}).
Proof.
  intros Hload. unfold parse. unfold try_except, bind at 1, lift at 1.
  rewrite Hload.
  by rewrite (check_fields_dict _ _ _ required_fields_NoDup).
Qed.

(** [parse] when the text is not JSON. *)
Lemma parse_not_json text w :
  json_loads text = Raise JSONDecodeError → parse text w = (Return all_na, w).
Proof. intros Hload. unfold parse. run_monad. by rewrite Hload. Qed.

Lemma missing_fields_spec field d :
  field ∈ missing_fields d ↔ field ∈ required_fields ∧ dict_has field d = false.
Proof. unfold missing_fields. rewrite list_elem_of_filter. tauto. Qed.

Lemma completed_get_present key d :
  dict_has key d = true → dict_get key (completed d) = dict_get key d.
Proof.
  intros [v Hv]%dict_has_get. unfold completed.
  by rewrite dict_get_app, Hv.
Qed.

Lemma dict_get_na_entries key fields :
  key ∈ fields →
  dict_get key (map (λ field, (field, JStr (str "na"))) fields)
  = Some (JStr (str "na")).
Proof.
  induction fields as [|f fields IH]; [by intros ?%elem_of_nil|].
  simpl. destruct (str_eqb f key) eqn:Hfk; [done|].
  apply str_eqb_neq in Hfk.
  intros [->|Hin]%elem_of_cons; [done|by apply IH].
Qed.

Lemma completed_get_missing field d :
  field ∈ required_fields → dict_has field d = false →
  dict_get field (completed d) = Some (JStr (str "na")).
Proof.
  intros Hreq Hhas. unfold completed. rewrite dict_get_app.
  destruct (dict_get field d) as [v|] eqn:Hget.
  - assert (dict_has field d = true) by (apply dict_has_get; by eexists).
    congruence.
  - apply dict_get_na_entries. by apply missing_fields_spec.
Qed.

Lemma completed_has_required field d :
  field ∈ required_fields → is_Some (dict_get field (completed d)).
Proof.
  intros Hreq. destruct (dict_has field d) eqn:Hhas.
  - rewrite completed_get_present by done. by apply dict_has_get.
  - rewrite completed_get_missing by done. by eexists.
Qed.

Lemma missing_fields_nil d :
  (∀ field, field ∈ required_fields → dict_has field d = true) →
  missing_fields d = [].
Proof.
  intros Hall. unfold missing_fields.
  induction required_fields as [|f fields IH]; [done|].
  rewrite filter_cons_False.
  - apply IH. intros g Hg. apply Hall. by right.
  - rewrite (Hall f); [done|by left].
Qed.

(** [parse] on the text of the four fields. *)
Lemma parse_summary_text X Y Z W w :
  plain X → plain Y → plain Z → plain W →
  parse (summary_text X Y Z W) w
  = (Return (JDict [(str "topic", JStr X); (str "entities", JStr Y);
                    (str "summary", JStr Z); (str "timeline", JStr W)]), w).
Proof.
  intros HX HY HZ HW.
  rewrite (parse_dict _ _ _ (json_loads_summary_text X Y Z W HX HY HZ HW)).
  unfold completed. rewrite missing_fields_nil.
  - simpl. rewrite !app_nil_r. by destruct w.
  - apply Forall_forall. repeat constructor.
Qed.

End Validator.

(** What [parse] does with JSON text that is not an object: null, a
    boolean or a number has no [in], a list takes no string key, and a list
    or string that happens to hold the four names is returned as it is. *)
Lemma parse_not_a_container text v w :
  json_loads text = Return v →
  match v with JNull | JBool _ | JInt _ | JFloat _ => True | _ => False end →
  parse text w = (Raise TypeError, w).
Proof.
  intros Hload Hv. unfold parse, try_except, bind, lift. rewrite Hload.
  by destruct v.
Qed.

Lemma parse_json_number w : parse (str "5") w = (Raise TypeError, w).
Proof.
  assert (json_loads (str "5") = Return (JInt 5)) as H by (by vm_compute).
  unfold parse. autounfold with monad_ops. by rewrite H.
Qed.

Lemma parse_json_empty_list w :
  parse (str "[]") w
  = (Raise TypeError,
     {| stdout := stdout w ++ [FieldMissing (str "topic")]; files := files w |}).
Proof.
  assert (json_loads (str "[]") = Return (JList [])) as H by (by vm_compute).
  unfold parse. autounfold with monad_ops. by rewrite H.
Qed.

Lemma parse_json_list_of_names w :
  parse (jtext "['topic', 'entities', 'summary', 'timeline']") w
  = (Return (JList [JStr (str "topic"); JStr (str "entities");
                    JStr (str "summary"); JStr (str "timeline")]), w).
Proof.
  assert (json_loads (jtext "['topic', 'entities', 'summary', 'timeline']")
          = Return (JList [JStr (str "topic"); JStr (str "entities");
                           JStr (str "summary"); JStr (str "timeline")])) as H
    by (by vm_compute).
  unfold parse. autounfold with monad_ops. by rewrite H.
Qed.

(** C1, as stated, fails: the text below is a JSON object, and what [parse]
    returns for it has five keys, with a number under topic. *)
Lemma parse_structured_summary_counterexample :
  ¬ ∃ v w', parse (jtext "{'topic': 1, 'note': 'x'}") fresh_world = (Return v, w')
            ∧ is_structured_summary v = true.
Proof.
  intros (v & w' & Hp & Hs).
  rewrite (parse_dict _ [(str "topic", JInt 1); (str "note", JStr (str "x"))])
    in Hp by (by vm_compute).
  injection Hp as <- _. by vm_compute in Hs.
Qed.

(** C1, amended. For every text that [json.loads] rejects with
    JSONDecodeError (the empty string among them) or decodes to an object,
    [parse] returns, without raising and without touching a file, a dict in
    which the four required keys are present; every key of the decoded
    object is in it with the value it was decoded to, string or not. *)
Theorem parse_returns_required_fields text w :
  json_loads text = Raise JSONDecodeError ∨ (∃ d, json_loads text = Return (JDict d)) →
  ∃ d' w',
    parse text w = (Return (JDict d'), w')
    ∧ files w' = files w
    ∧ (∀ field, field ∈ required_fields → is_Some (dict_get field d'))
    ∧ (∀ d key v, json_loads text = Return (JDict d) →
         dict_get key d = Some v → dict_get key d' = Some v).
Proof.
  intros [Hbad|[d Hd]].
  - rewrite (parse_not_json _ _ Hbad). eexists _, w. split_and!; [done..| |].
    + intros field Hf. apply dict_has_get.
      revert field Hf. apply Forall_forall. vm_compute. repeat constructor.
    + intros d key v Hd. congruence.
  - rewrite (parse_dict _ _ _ Hd). eexists _, _. split_and!; [done..| |].
    + intros field Hf. by apply completed_has_required.
    + intros d0 key v Hd0 Hget.
      assert (d0 = d) as -> by congruence.
      rewrite completed_get_present; [done|].
      apply dict_has_get. by eexists.
Qed.

Lemma parse_returns_required_fields_witness :
  (json_loads [] = Raise JSONDecodeError
   ∨ (∃ d, json_loads [] = Return (JDict d)))
  ∧ ∃ d' w',
      parse [] fresh_world = (Return (JDict d'), w')
      ∧ files w' = files fresh_world
      ∧ (∀ field, field ∈ required_fields → is_Some (dict_get field d'))
      ∧ (∀ d key v, json_loads [] = Return (JDict d) →
           dict_get key d = Some v → dict_get key d' = Some v).
Proof.
  split.
  - left. vm_compute. reflexivity.
  - apply (parse_returns_required_fields [] fresh_world).
    left. vm_compute. reflexivity.
Defined.

(** C4. When the text decodes to an object that holds the four required
    keys, [parse] returns that object as it was decoded, and prints
    nothing; for the encoding of topic X, entities Y, summary Z and
    timeline W the result is the dict of X, Y, Z and W. *)
Theorem parse_well_formed text d w :
  json_loads text = Return (JDict d) →
  (∀ field, field ∈ required_fields → dict_has field d = true) →
  parse text w = (Return (JDict d), w).
Proof.
  intros Hd Hall. rewrite (parse_dict _ _ _ Hd).
  unfold completed. rewrite (missing_fields_nil _ Hall). simpl.
  rewrite !app_nil_r. by destruct w.
Qed.

Lemma parse_well_formed_witness :
  let text := jtext "{'topic':'X','entities':'Y','summary':'Z','timeline':'W'}" in
  let d := [(str "topic", JStr (str "X")); (str "entities", JStr (str "Y"));
            (str "summary", JStr (str "Z")); (str "timeline", JStr (str "W"))] in
  json_loads text = Return (JDict d)
  ∧ (∀ field, field ∈ required_fields → dict_has field d = true)
  ∧ parse text fresh_world = (Return (JDict d), fresh_world).
Proof.
  intros text d.
  assert (json_loads text = Return (JDict d)) as Hd by (vm_compute; reflexivity).
  assert (∀ field, field ∈ required_fields → dict_has field d = true) as Hall.
  { apply Forall_forall. repeat constructor. }
  split_and!; [exact Hd|exact Hall|].
  exact (parse_well_formed text d fresh_world Hd Hall).
Defined.

(** C5. When the text decodes to an object [d], [parse] returns [d] with
    an entry "na" added for each required key that [d] lacks, and prints
    one diagnostic per such key, naming it, and no other.  Every key of [d]
    keeps the value it was decoded to, whatever its type.  In particular,
    when only entities is missing, entities is "na" and topic, summary and
    timeline are as decoded. *)
Theorem parse_substitutes_missing text d w :
  json_loads text = Return (JDict d) →
  parse text w
  = (Return (JDict (completed d)),
     {| stdout := stdout w ++ map FieldMissing (missing_fields d);
        files := files w |})
  ∧ (∀ field, field ∈ required_fields → dict_has field d = false →
       dict_get field (completed d) = Some (JStr (str "na"))
       ∧ FieldMissing field ∈ map FieldMissing (missing_fields d))
  ∧ (∀ field, FieldMissing field ∈ map FieldMissing (missing_fields d) →
       field ∈ required_fields ∧ dict_has field d = false)
  ∧ (∀ key, dict_has key d = true → dict_get key (completed d) = dict_get key d)
  ∧ (dict_has (str "entities") d = false →
     dict_has (str "topic") d = true →
     dict_has (str "summary") d = true →
     dict_has (str "timeline") d = true →
     dict_get (str "entities") (completed d) = Some (JStr (str "na"))
     ∧ dict_get (str "topic") (completed d) = dict_get (str "topic") d
     ∧ dict_get (str "summary") (completed d) = dict_get (str "summary") d
     ∧ dict_get (str "timeline") (completed d) = dict_get (str "timeline") d
     ∧ missing_fields d = [str "entities"]).
Proof.
  intros Hd. split_and!.
  - by apply parse_dict.
  - intros field Hreq Hhas. split; [by apply completed_get_missing|].
    apply list_elem_of_fmap. exists field. split; [done|].
    by apply missing_fields_spec.
  - intros field (g & [= <-] & Hg)%list_elem_of_fmap.
    by apply missing_fields_spec.
  - intros key Hk. by apply completed_get_present.
  - intros He Ht Hs Hl. split_and!.
    + apply completed_get_missing; [|done]. set_solver.
    + by apply completed_get_present.
    + by apply completed_get_present.
    + by apply completed_get_present.
    + unfold missing_fields, required_fields.
      rewrite filter_cons_False by (by rewrite Ht).
      rewrite filter_cons_True by done.
      rewrite filter_cons_False by (by rewrite Hs).
      rewrite filter_cons_False by (by rewrite Hl).
      done.
Qed.

Lemma parse_substitutes_missing_witness :
  let text := jtext "{'topic': 'X', 'summary': 3, 'timeline': ['a']}" in
  let d := [(str "topic", JStr (str "X")); (str "summary", JInt 3);
            (str "timeline", JList [JStr (str "a")])] in
  json_loads text = Return (JDict d)
  ∧ parse text fresh_world
    = (Return (JDict (d ++ [(str "entities", JStr (str "na"))])),
       {| stdout := [FieldMissing (str "entities")]; files := files fresh_world |}).
Proof.
  intros text d.
  assert (json_loads text = Return (JDict d)) as Hd by (vm_compute; reflexivity).
  split; [exact Hd|].
  exact (proj1 (parse_substitutes_missing text d fresh_world Hd)).
Defined.

(** C6. For every text that cannot be decoded (prose, truncated text, or
    otherwise not well-formed JSON: [json.loads] raises JSONDecodeError),
    [parse] raises nothing, prints nothing and returns the dict whose four
    fields are "na". *)
Theorem parse_undecodable text w :
  json_loads text = Raise JSONDecodeError →
  parse text w
  = (Return (JDict [(str "topic", JStr (str "na"));
                    (str "entities", JStr (str "na"));
                    (str "summary", JStr (str "na"));
                    (str "timeline", JStr (str "na"))]), w).
Proof.
  intros Hload. unfold parse.
  unfold try_except, bind, lift. rewrite Hload.
  reflexivity.
Qed.

Lemma parse_undecodable_witness :
  let prose := str "Here is the summary you asked for." in
  let truncated := jtext "{'topic': 'X', 'entities': " in
  let malformed := jtext "{'topic': 'X',}" in
  (json_loads prose = Raise JSONDecodeError
   ∧ json_loads truncated = Raise JSONDecodeError
   ∧ json_loads malformed = Raise JSONDecodeError)
  ∧ parse prose fresh_world = (Return all_na, fresh_world)
  ∧ parse truncated fresh_world = (Return all_na, fresh_world)
  ∧ parse malformed fresh_world = (Return all_na, fresh_world).
Proof.
  intros prose truncated malformed.
  assert (json_loads prose = Raise JSONDecodeError) as H1 by (vm_compute; reflexivity).
  assert (json_loads truncated = Raise JSONDecodeError) as H2 by (vm_compute; reflexivity).
  assert (json_loads malformed = Raise JSONDecodeError) as H3 by (vm_compute; reflexivity).
  split; [by split_and!|].
  split_and!.
  - exact (parse_undecodable prose fresh_world H1).
  - exact (parse_undecodable truncated fresh_world H2).
  - exact (parse_undecodable malformed fresh_world H3).
Defined.

(* ===================================================================== *)
(** ** The pipeline *)
(* ===================================================================== *)

Section Orchestrator.

Variable env : Env.
Variable topic : pystr.
Implicit Types (w : world) (news : list RawArticle) (data : json).

Lemma printing_printing w l1 l2 :
  printing (printing w l1) l2 = printing w (l1 ++ l2).
Proof. unfold printing. simpl. by rewrite <- app_assoc. Qed.

Lemma print_printing p w : print p w = (Return tt, printing w [p]).
Proof. done. Qed.

Lemma bind_Return {A B} (c : M A) (k : A → M B) w a w' :
  c w = (Return a, w') → bind c k w = k a w'.
Proof. unfold bind. by intros ->. Qed.

Lemma bind_Raise {A B} (c : M A) (k : A → M B) w e w' :
  c w = (Raise e, w') → bind c k w = (Raise e, w').
Proof. unfold bind. by intros ->. Qed.

Lemma fetch_news_data_returns news w :
  get_cnn_news_with_content env topic = Return news →
  fetch_news_data env topic w
  = (Return news, printing w [CnnStart; CnnDone (length news)]).
Proof.
  intros Hfetch. unfold fetch_news_data. autounfold with monad_ops.
  rewrite Hfetch. simpl. by rewrite printing_printing.
Qed.

(** The chain answered, and the parser returned. *)
Lemma extract_returns news text data w w' :
  llm env topic news = Return text →
  parse text w = (Return data, w') →
  extract_entities_and_summary env topic news w = (Return data, w').
Proof.
  intros Hllm Hparse. unfold extract_entities_and_summary, llm_chain_invoke.
  unfold try_except, bind, lift. rewrite Hllm. cbv beta iota. by rewrite Hparse.
Qed.

(** The model call raised: the error is printed, and the result is
    [None]. *)
Lemma extract_model_raises news e w :
  llm env topic news = Raise e →
  extract_entities_and_summary env topic news w
  = (Return JNull, printing w [ExtractError e]).
Proof.
  intros Hllm. unfold extract_entities_and_summary, llm_chain_invoke.
  unfold try_except, bind, lift. by rewrite Hllm.
Qed.

(** The parser raised inside the chain: the same. *)
Lemma extract_parser_raises news text e w w' :
  llm env topic news = Return text →
  parse text w = (Raise e, w') →
  extract_entities_and_summary env topic news w
  = (Return JNull, printing w' [ExtractError e]).
Proof.
  intros Hllm Hparse. unfold extract_entities_and_summary, llm_chain_invoke.
  unfold try_except, bind, lift. rewrite Hllm. cbv beta iota. by rewrite Hparse.
Qed.

(** With [None] for the summary, [generate_html] raises, whatever the
    template and the articles, and changes nothing. *)
Lemma generate_html_None news w :
  ∃ e, generate_html env JNull news w = (Raise e, w).
Proof.
  unfold generate_html. autounfold with monad_ops.
  destruct (files w !! str "template.html") as [tpl|]; [|by eexists].
  destruct (Template env tpl) as [[]|e]; simpl; by eexists.
Qed.

Lemma generate_html_returns d news w tpl vt vs ve vl html :
  files w !! str "template.html" = Some tpl →
  Template env tpl = Return tt →
  dict_get (str "topic") d = Some vt →
  dict_get (str "summary") d = Some vs →
  dict_get (str "entities") d = Some ve →
  dict_get (str "timeline") d = Some vl →
  render env tpl {| r_topic := vt; r_summary := vs; r_entities := ve;
                    r_timeline := vl; r_news_articles := news;
                    r_generated_date := now env |} = Return html →
  generate_html env (JDict d) news w = (Return html, w).
Proof.
  intros Hfile Htpl Ht Hs He Hl Hrender.
  unfold generate_html. autounfold with monad_ops.
  rewrite Hfile, Htpl. simpl. rewrite Ht, Hs, He, Hl. by rewrite Hrender.
Qed.

End Orchestrator.

(** C2, as stated, fails: the fetcher finds nothing for the topic, and the
    run goes on to the model, renders, writes the output file, which did
    not exist, and returns its path; no line about missing articles is
    printed. *)
Lemma run_pipeline_empty_fetch_counterexample :
  let env := example_env []
    (Return (jtext "{'topic':'T','entities':'E','summary':'S','timeline':'L'}")) in
  get_cnn_news_with_content env (str "obscure-topic-x") = Return []
  ∧ files fresh_world !! str "news_summary.html" = None
  ∧ run_pipeline env (str "obscure-topic-x") (str "news_summary.html") fresh_world
    = (Return (str "news_summary.html"),
       {| stdout := [Started (str "obscure-topic-x"); Fetching; CnnStart; CnnDone 0;
                     Deduplicating; Summarising; Rendering;
                     Finished (str "news_summary.html")];
          files := <[str "news_summary.html" := str "<h1>T</h1>"]> (files fresh_world) |})
  ∧ <[str "news_summary.html" := str "<h1>T</h1>"]> (files fresh_world)
    !! str "news_summary.html" = Some (str "<h1>T</h1>").
Proof.
  intros env. split_and!.
  - reflexivity.
  - by vm_compute.
  - by vm_compute.
  - apply lookup_insert_eq.
Qed.

(** C2, amended. When the fetcher returns no article, the run does not stop:
    the model is asked about the empty list and, when its answer decodes to
    an object, the template is there and accepted, rendering succeeds and
    the output file can be opened, the document is written to the output
    file and its path returned.  The console shows the count 0 and the
    diagnostics of the validator, and no report of missing articles. *)
Theorem run_pipeline_empty_fetch env topic output_file w text d tpl vt vs ve vl html :
  get_cnn_news_with_content env topic = Return [] →
  llm env topic [] = Return text →
  json_loads text = Return (JDict d) →
  files w !! str "template.html" = Some tpl →
  Template env tpl = Return tt →
  dict_get (str "topic") (completed d) = Some vt →
  dict_get (str "summary") (completed d) = Some vs →
  dict_get (str "entities") (completed d) = Some ve →
  dict_get (str "timeline") (completed d) = Some vl →
  render env tpl {| r_topic := vt; r_summary := vs; r_entities := ve;
                    r_timeline := vl; r_news_articles := [];
                    r_generated_date := now env |} = Return html →
  writable env output_file = true →
  run_pipeline env topic output_file w
  = (Return output_file,
     {| stdout := stdout w
                  ++ [Started topic; Fetching; CnnStart; CnnDone 0;
                      Deduplicating; Summarising]
                  ++ map FieldMissing (missing_fields d)
                  ++ [Rendering; Finished output_file];
        files := <[output_file := html]> (files w) |}).
Proof.
  intros Hfetch Hllm Hload Hfile Htpl Ht Hs He Hl Hrender Hwr.
  unfold run_pipeline.
  do 2 (erewrite bind_Return by apply print_printing).
  erewrite bind_Return by (by apply fetch_news_data_returns).
  erewrite bind_Return by apply print_printing.
  change (deduplicate_news []) with (@nil RawArticle). cbv zeta.
  erewrite bind_Return by apply print_printing.
  erewrite bind_Return
    by (eapply extract_returns; [exact Hllm | by apply parse_dict]).
  erewrite bind_Return by apply print_printing.
  erewrite bind_Return by (by eapply generate_html_returns).
  unfold write_file, bind at 1. rewrite Hwr.
  unfold bind, print, ret, printing. simpl.
  by rewrite <- !app_assoc.
Qed.

Lemma run_pipeline_empty_fetch_witness :
  let env := example_env [] (Return (jtext "{'topic':'T','summary':'S'}")) in
  let topic := str "obscure-topic-x" in
  let output_file := str "news_summary.html" in
  get_cnn_news_with_content env topic = Return []
  ∧ run_pipeline env topic output_file fresh_world
    = (Return output_file,
       {| stdout := [Started topic; Fetching; CnnStart; CnnDone 0;
                     Deduplicating; Summarising;
                     FieldMissing (str "entities"); FieldMissing (str "timeline");
                     Rendering; Finished output_file];
          files := <[output_file := str "<h1>T</h1>"]> (files fresh_world) |}).
Proof.
  intros env topic output_file. split; [reflexivity|].
  apply (run_pipeline_empty_fetch env topic output_file fresh_world
           (jtext "{'topic':'T','summary':'S'}")
           [(str "topic", JStr (str "T")); (str "summary", JStr (str "S"))]
           (str "<html>{{ topic }}</html>")
           (JStr (str "T")) (JStr (str "S")) (JStr (str "na")) (JStr (str "na"))
           (str "<h1>T</h1>"));
    vm_compute; reflexivity.
Defined.

(** C8. When the fetcher returns and the model call raises, the error is
    printed, the run ends with an exception before the output file is
    opened, and no file is written or changed. *)
Theorem run_pipeline_invocation_failure env topic output_file w news e :
  get_cnn_news_with_content env topic = Return news →
  llm env topic (deduplicate_news news) = Raise e →
  ∃ e',
    run_pipeline env topic output_file w
    = (Raise e',
       {| stdout := stdout w
                    ++ [Started topic; Fetching; CnnStart; CnnDone (length news);
                        Deduplicating; Summarising; ExtractError e; Rendering];
          files := files w |}).
Proof.
  intros Hfetch Hllm.
  unfold run_pipeline.
  do 2 (erewrite bind_Return by apply print_printing).
  erewrite bind_Return by (by apply fetch_news_data_returns).
  erewrite bind_Return by apply print_printing.
  cbv zeta.
  erewrite bind_Return by apply print_printing.
  erewrite bind_Return by (by apply extract_model_raises).
  erewrite bind_Return by apply print_printing.
  match goal with
  | |- context [bind (generate_html env JNull ?l) _ ?w0] =>
      destruct (generate_html_None env l w0) as [e' He']
  end.
  exists e'. erewrite bind_Raise by exact He'.
  unfold printing. simpl. by rewrite <- !app_assoc.
Qed.

Lemma run_pipeline_invocation_failure_witness :
  let news := [{| title := str "Alpha wins award"; url := str "https://cnn.com/a";
                  content := str "Alpha won."; publish_date := str "2025-01-01";
                  source := str "CNN" |}] in
  let env := example_env news (Raise ServiceError) in
  (get_cnn_news_with_content env (str "alpha") = Return news
   ∧ llm env (str "alpha") (deduplicate_news news) = Raise ServiceError)
  ∧ ∃ e',
      run_pipeline env (str "alpha") (str "news_summary.html") fresh_world
      = (Raise e',
         {| stdout := stdout fresh_world
                      ++ [Started (str "alpha"); Fetching; CnnStart;
                          CnnDone (length news); Deduplicating; Summarising;
                          ExtractError ServiceError; Rendering];
            files := files fresh_world |}).
Proof.
  intros news env. split; [by split|].
  apply (run_pipeline_invocation_failure env (str "alpha")
           (str "news_summary.html") fresh_world news ServiceError);
    reflexivity.
Defined.

(* ===================================================================== *)
(** ** The AP News fetcher *)
(* ===================================================================== *)

Section ApFetcher.

Variable web : Web.
Implicit Types (w : world) (news_list : list Headline) (detailed : list RawArticle).

(** The list of headlines never grows past [max_articles]. *)
Lemma collect_cards_bound cards max_articles : ∀ news_list l,
  (Z.of_nat (length news_list) ≤ Z.max 0 max_articles)%Z →
  collect_cards cards max_articles news_list = Return l →
  (Z.of_nat (length l) ≤ Z.max 0 max_articles)%Z.
Proof.
  induction cards as [|card cards IH]; intros news_list l Hlen; simpl.
  - by intros [= <-].
  - destruct (Z.of_nat (length news_list) >=? max_articles)%Z eqn:Hge.
    { by intros [= <-]. }
    destruct card as [a_tag|]; [|by apply IH].
    destruct (a_href a_tag) as [link|]; [|done].
    apply IH. rewrite length_app. simpl. lia.
Qed.

(** The list stage has no effect of its own: it returns the headlines or
    lets the exception of the driver, of the page load or of a card
    through. *)
Lemma get_ap_news_list_selenium_outcome topic max_articles w :
  get_ap_news_list_selenium web topic max_articles w
  = (match edge web with
     | Raise e => Raise e
     | Return _ =>
         match search web topic with
         | Raise e => Raise e
         | Return cards => collect_cards cards max_articles []
         end
     end, w).
Proof.
  unfold get_ap_news_list_selenium. autounfold with monad_ops.
  destruct (edge web); [|done]. by destruct (search web topic).
Qed.

(** Fetching one article never raises and never fails to answer: every
    exception ends in the [except] branch. *)
Lemma get_ap_article_content_returns i url w :
  ∃ body w', get_ap_article_content web i url w = (Return body, w').
Proof.
  unfold get_ap_article_content. autounfold with monad_ops. simpl.
  destruct (article web i url) as [page|e]; [|by eexists _, _].
  destruct (published_time page) as [[|c t]|]; try by eexists _, _.
  destruct (isodate web _); by eexists _, _.
Qed.

(** What the detail loop adds: articles with a body, labelled AP News,
    at most one per headline. *)
Lemma crawl_details_adds n news_list : ∀ i detailed w l w',
  crawl_details web n i news_list detailed w = (Return l, w') →
  ∃ extra,
    l = detailed ++ extra
    ∧ Forall (λ news, content news ≠ [] ∧ source news = str "AP News") extra
    ∧ length extra ≤ length news_list.
Proof.
  induction news_list as [|news news_list IH]; intros i detailed w l w'; simpl.
  - intros [= <- _]. exists []. by rewrite app_nil_r.
  - erewrite bind_Return by apply print_printing.
    destruct (get_ap_article_content_returns i (h_url news) (printing w [ApProgress i n]))
      as (body & w1 & Hbody).
    erewrite bind_Return by exact Hbody.
    intros (extra & -> & Hall & Hlen)%IH.
    destruct (b_content body) as [|c t] eqn:Hc.
    + exists extra. split_and!; [done|done|lia].
    + eexists (_ :: extra). split_and!.
      * by rewrite <- app_assoc.
      * constructor; [|done]. by simpl.
      * simpl. lia.
Qed.

(** The list stage let an exception through: so does the fetcher. *)
Lemma get_ap_news_with_content_propagates topic max_articles w e :
  edge web = Return tt → search web topic = Raise e →
  get_ap_news_with_content web topic max_articles w = (Raise e, w).
Proof.
  intros Hedge Hsearch. unfold get_ap_news_with_content.
  erewrite bind_Raise; [done|].
  rewrite get_ap_news_list_selenium_outcome. by rewrite Hedge, Hsearch.
Qed.

(** The detail loop always returns. *)
Lemma crawl_details_returns n news_list : ∀ i detailed w,
  ∃ l w', crawl_details web n i news_list detailed w = (Return l, w').
Proof.
  induction news_list as [|news news_list IH]; intros i detailed w; simpl.
  - by eexists _, _.
  - erewrite bind_Return by apply print_printing.
    destruct (get_ap_article_content_returns i (h_url news) (printing w [ApProgress i n]))
      as (body & w1 & Hbody).
    erewrite bind_Return by exact Hbody.
    apply IH.
Qed.

(** Once the list stage has returned, so does the fetcher: the only
    exceptions that leave it are those of the list stage. *)
Lemma get_ap_news_with_content_returns topic max_articles w news_list :
  get_ap_news_list_selenium web topic max_articles w = (Return news_list, w) →
  ∃ l w', get_ap_news_with_content web topic max_articles w = (Return l, w').
Proof.
  intros Hlist. unfold get_ap_news_with_content.
  erewrite bind_Return by exact Hlist.
  destruct news_list as [|news news_list].
  - by eexists _, _.
  - erewrite bind_Return by apply print_printing.
    apply crawl_details_returns.
Qed.

End ApFetcher.

(** C9, at a failing input: the search page does not load in time, the wait
    raises TimeoutException, and the fetcher lets it through to its
    caller. *)
Theorem get_ap_news_with_content_raises :
  get_ap_news_with_content timeout_web (str "OpenAI") max_articles_count fresh_world
  = (Raise TimeoutException, fresh_world).
Proof. by apply get_ap_news_with_content_propagates. Qed.

(** C10. Every article in a list that the fetcher returns has a body that is
    not empty and the source label AP News, in a record of the five fields;
    the list has at most [max_articles] articles (none when [max_articles]
    is not positive), so at most 20 with the default. *)
Theorem get_ap_news_with_content_articles web topic max_articles w l w' :
  get_ap_news_with_content web topic max_articles w = (Return l, w') →
  Forall (λ news, content news ≠ [] ∧ source news = str "AP News") l
  ∧ (Z.of_nat (length l) ≤ Z.max 0 max_articles)%Z
  ∧ (max_articles = max_articles_count → length l ≤ 20).
Proof.
  intros Hrun.
  assert (Forall (λ news, content news ≠ [] ∧ source news = str "AP News") l
          ∧ (Z.of_nat (length l) ≤ Z.max 0 max_articles)%Z) as [Hall Hlen].
  { revert Hrun. unfold get_ap_news_with_content.
    unfold bind at 1. rewrite get_ap_news_list_selenium_outcome.
    destruct (match edge web with
              | Raise e => Raise e
              | Return _ =>
                  match search web topic with
                  | Raise e => Raise e
                  | Return cards => collect_cards cards max_articles []
                  end
              end) as [news_list|e] eqn:Hlist; [|done].
    assert (Z.of_nat (length news_list) ≤ Z.max 0 max_articles)%Z as Hbound.
    { destruct (edge web); [|done]. destruct (search web topic); [|done].
      eapply collect_cards_bound; [|exact Hlist]. simpl. lia. }
    destruct news_list as [|news news_list].
    - unfold bind, print, ret. intros [= <- _]. split; [constructor|simpl; lia].
    - erewrite bind_Return by apply print_printing.
      intros (extra & -> & Hall & Hlen)%crawl_details_adds.
      split; [done|]. simpl in *. lia. }
  split_and!; [done..|].
  intros ->. unfold max_articles_count in Hlen. lia.
Qed.

Lemma get_ap_news_with_content_articles_witness :
  let l := [{| title := str "Alpha wins award";
               url := str "https://apnews.com/article/a";
               content := str "Alpha won. More soon.";
               publish_date := str "2025-01-02";
               source := str "AP News" |}] in
  (∃ w', get_ap_news_with_content example_web (str "award") max_articles_count fresh_world
         = (Return l, w'))
  ∧ Forall (λ news, content news ≠ [] ∧ source news = str "AP News") l
  ∧ (Z.of_nat (length l) ≤ Z.max 0 max_articles_count)%Z
  ∧ (max_articles_count = max_articles_count → length l ≤ 20).
Proof.
  intros l.
  assert (get_ap_news_with_content example_web (str "award") max_articles_count fresh_world
          = (Return l,
             printing fresh_world
               [ApFound 2;
                ApProgress 1 2; ApCrawling (str "https://apnews.com/article/a");
                ApProgress 2 2; ApCrawling (str "https://apnews.com/article/b")]))
    as Hrun by (vm_compute; reflexivity).
  split; [by eexists|].
  exact (get_ap_news_with_content_articles example_web (str "award")
           max_articles_count fresh_world l _ Hrun).
Defined.

Set Warnings "-clear-no-such-hyp".

(* ===================================================================== *)
(** ** More on the summary validator *)
(* ===================================================================== *)

Section ValidatorEdges.

Implicit Types (w : world) (text field : pystr) (data : json).

Lemma strip_prefix_Some p : ∀ s rest, strip_prefix p s = Some rest ↔ s = p ++ rest.
Proof.
  induction p as [|c p IH]; intros s rest; simpl.
  - split; [by intros [= ->]|by intros ->].
  - destruct s as [|d s]; [done|].
    destruct (N.eqb_spec c d) as [->|Hne].
    + rewrite IH. split; [by intros ->|by intros [= ->]].
    + split; [done|]. intros [= ? ?]. by subst.
Qed.

(** [str_contains] is the substring test. *)
Lemma str_contains_spec p : ∀ s,
  str_contains p s = true ↔ ∃ a b, s = a ++ p ++ b.
Proof.
  assert (∀ s, startswith p s = true ↔ ∃ b, s = p ++ b) as Hstart.
  { intros s. unfold startswith.
    destruct (strip_prefix p s) as [r|] eqn:Hr.
    - apply strip_prefix_Some in Hr. split; [by exists r|done].
    - split; [done|]. intros [b Hb]. apply strip_prefix_Some in Hb. congruence. }
  induction s as [|c s IH].
  - simpl. rewrite orb_false_r, Hstart. split.
    + intros [b Hb]. by exists [], b.
    + intros (a & b & Hab). destruct a; [by exists b|done].
  - simpl. rewrite orb_true_iff, Hstart, IH. split.
    + intros [[b Hb]|(a & b & Hab)]; [by exists [], b|].
      exists (c :: a), b. by rewrite Hab.
    + intros (a & b & Hab). destruct a as [|c' a]; [left; by exists b|].
      right. injection Hab as -> ->. by exists a, b.
Qed.

(** [name in items] for a list of decoded values. *)
Lemma contains_list field items :
  ∃ b, contains field (JList items) = Return b ∧ (b = true ↔ JStr field ∈ items).
Proof.
  simpl. eexists. split; [done|].
  induction items as [|x items IH]; simpl.
  - split; [done|by intros ?%elem_of_nil].
  - rewrite orb_true_iff, IH, elem_of_cons.
    assert ((match x with JStr s => str_eqb s field | _ => false end) = true
            ↔ JStr field = x) as ->; [|done].
    destruct x; try (split; done).
    unfold str_eqb. rewrite bool_decide_eq_true.
    split; [by intros ->|by intros [= ->]].
Qed.

(** Every field is found: the loop returns the value it was given. *)
Lemma check_fields_present fields data w :
  (∀ field, field ∈ fields → contains field data = Return true) →
  check_fields fields data w = (Return data, w).
Proof.
  induction fields as [|f fields IH]; intros Hall; [done|].
  simpl. unfold bind at 1, lift at 1.
  rewrite (Hall f) by (by left). simpl.
  apply IH. intros g Hg. apply Hall. by right.
Qed.

(** The first field that is not found in a value other than a dict is
    reported, and the assignment raises. *)
Lemma check_fields_first_missing pre f post data w :
  (∀ d, data ≠ JDict d) →
  (∀ field, field ∈ pre → contains field data = Return true) →
  contains f data = Return false →
  check_fields (pre ++ f :: post) data w
  = (Raise TypeError, printing w [FieldMissing f]).
Proof.
  intros Hnd. induction pre as [|g pre IH]; intros Hpre Hf.
  - simpl. unfold bind at 1, lift at 1. rewrite Hf. simpl.
    unfold bind at 1, print. unfold bind at 1, lift at 1.
    destruct data; try done. by destruct (Hnd pairs).
  - simpl. unfold bind at 1, lift at 1.
    rewrite (Hpre g) by (by left). simpl.
    apply IH; [|done]. intros h Hh. apply Hpre. by right.
Qed.

(** The loop raises nothing but TypeError. *)
Lemma check_fields_raises fields : ∀ data w e w',
  check_fields fields data w = (Raise e, w') → e = TypeError.
Proof.
  induction fields as [|f fields IH]; intros data w e w'; [done|].
  simpl. unfold bind at 1, lift at 1.
  destruct (contains f data) as [[]|e0] eqn:Hc; simpl.
  - apply IH.
  - unfold bind at 1, print. unfold bind at 1, lift at 1.
    destruct (setitem data f (JStr (str "na"))) as [data'|e1] eqn:Hs.
    + apply IH.
    + intros [= <- _]. destruct data; simpl in Hs; congruence.
  - intros [= <- _]. destruct data; simpl in Hc; congruence.
Qed.

(** What the loop prints: diagnostics for some of the fields, in order. *)
Lemma check_fields_effects fields : ∀ data w,
  ∃ reported,
    reported `sublist_of` fields
    ∧ (check_fields fields data w).2 = printing w (map FieldMissing reported).
Proof.
  induction fields as [|f fields IH]; intros data w.
  - exists []. split; [done|]. simpl. unfold printing. simpl.
    rewrite app_nil_r. by destruct w.
  - simpl. unfold bind at 1, lift at 1.
    destruct (contains f data) as [[]|e0] eqn:Hc; simpl.
    + destruct (IH data w) as (r & Hr & Hw). exists r. split; [by apply sublist_cons|done].
    + unfold bind at 1, print. unfold bind at 1, lift at 1.
      destruct (setitem data f (JStr (str "na"))) as [data'|e1] eqn:Hs.
      * destruct (IH data' (printing w [FieldMissing f])) as (r & Hr & Hw).
        exists (f :: r). split; [by apply sublist_skip|].
        rewrite Hw. by rewrite printing_printing.
      * exists [f]. split; [apply sublist_skip, sublist_nil_l|done].
    + exists []. split; [apply sublist_nil_l|]. simpl. unfold printing. simpl.
      rewrite app_nil_r. by destruct w.
Qed.

(** [parse] after a successful decode is the loop, with its TypeError let
    through. *)
Lemma parse_check_fields_returns text v w x w' :
  json_loads text = Return v →
  check_fields required_fields v w = (Return x, w') →
  parse text w = (Return x, w').
Proof.
  intros Hload Hcheck. unfold parse, try_except, bind, lift.
  rewrite Hload. cbv beta iota. by rewrite Hcheck.
Qed.

Lemma parse_check_fields_raises text v w w' :
  json_loads text = Return v →
  check_fields required_fields v w = (Raise TypeError, w') →
  parse text w = (Raise TypeError, w').
Proof.
  intros Hload Hcheck. unfold parse, try_except, bind, lift.
  rewrite Hload. cbv beta iota. by rewrite Hcheck.
Qed.

End ValidatorEdges.



(** X2. When the text decodes to null, a boolean or a number, [parse]
    raises TypeError at the first membership test: nothing is printed and
    nothing is returned. *)
Theorem parse_scalar_raises text v w :
  json_loads text = Return v →
  (v = JNull ∨ (∃ b, v = JBool b) ∨ (∃ n, v = JInt n) ∨ (∃ x, v = JFloat x)) →
  parse text w = (Raise TypeError, w).
Proof.
  intros Hload Hv. unfold parse, try_except, bind, lift. rewrite Hload.
  destruct Hv as [->|[[b ->]|[[n ->]|[x ->]]]]; reflexivity.
Qed.

Lemma parse_scalar_raises_witness :
  (json_loads (str "null") = Return JNull
   ∧ json_loads (str "-12.5e3") = Return (JFloat (str "-12.5e3")))
  ∧ parse (str "null") fresh_world = (Raise TypeError, fresh_world)
  ∧ parse (str "-12.5e3") fresh_world = (Raise TypeError, fresh_world).
Proof.
  assert (json_loads (str "null") = Return JNull) as H1 by (vm_compute; reflexivity).
  assert (json_loads (str "-12.5e3") = Return (JFloat (str "-12.5e3"))) as H2
    by (vm_compute; reflexivity).
  split; [by split|]. split.
  - apply (parse_scalar_raises _ _ fresh_world H1). by left.
  - apply (parse_scalar_raises _ _ fresh_world H2). right. right. right. by eexists.
Defined.

(** X3. When the text decodes to a list: if the four field names are among
    its items, [parse] returns the list itself, not a dict, and prints
    nothing; otherwise it prints the diagnostic for the first name that is
    not an item and raises TypeError. *)
Theorem parse_json_list text items w :
  json_loads text = Return (JList items) →
  ((∀ field, field ∈ required_fields → JStr field ∈ items) →
   parse text w = (Return (JList items), w))
  ∧ (∀ pre field post,
       required_fields = pre ++ field :: post →
       (∀ g, g ∈ pre → JStr g ∈ items) → JStr field ∉ items →
       parse text w = (Raise TypeError, printing w [FieldMissing field])).
Proof.
  intros Hload.
  assert (∀ f, JStr f ∈ items → contains f (JList items) = Return true) as Hin.
  { intros f Hf. destruct (contains_list f items) as (b & -> & Hb).
    f_equal. by apply Hb. }
  split.
  - intros Hall. apply (parse_check_fields_returns _ _ _ _ _ Hload).
    apply check_fields_present. intros f Hf. by apply Hin, Hall.
  - intros pre f post Hreq Hpre Hf.
    apply (parse_check_fields_raises _ _ _ _ Hload). rewrite Hreq.
    apply check_fields_first_missing; [done| |].
    + intros g Hg. by apply Hin, Hpre.
    + destruct (contains_list f items) as (b & -> & Hb).
      f_equal. destruct b; [|done]. exfalso. by apply Hf, Hb.
Qed.

Lemma parse_json_list_witness :
  let names := [JStr (str "topic"); JStr (str "entities");
                JStr (str "summary"); JStr (str "timeline")] in
  let text := jtext "['topic', 'entities', 'summary', 'timeline']" in
  let text2 := jtext "['topic', 7]" in
  (json_loads text = Return (JList names)
   ∧ json_loads text2 = Return (JList [JStr (str "topic"); JInt 7]))
  ∧ parse text fresh_world = (Return (JList names), fresh_world)
  ∧ parse text2 fresh_world
    = (Raise TypeError, printing fresh_world [FieldMissing (str "entities")]).
Proof.
  intros names text text2.
  assert (json_loads text = Return (JList names)) as H1 by (vm_compute; reflexivity).
  assert (json_loads text2 = Return (JList [JStr (str "topic"); JInt 7])) as H2
    by (vm_compute; reflexivity).
  split; [by split|]. split.
  - apply (proj1 (parse_json_list text names fresh_world H1)).
    apply Forall_forall. repeat constructor.
  - apply (proj2 (parse_json_list text2 _ fresh_world H2)
             [str "topic"] (str "entities") [str "summary"; str "timeline"]).
    + reflexivity.
    + apply Forall_forall. repeat constructor.
    + intros Hin. apply elem_of_cons in Hin as [Hin|Hin]; [discriminate Hin|].
      apply elem_of_cons in Hin as [Hin|Hin]; [discriminate Hin|].
      by apply elem_of_nil in Hin.
Defined.

(** X4. When the text decodes to a string: if each of the four field names
    occurs in it as a substring, [parse] returns the string itself, not a
    dict; otherwise it prints the diagnostic for the first name that does
    not occur and raises TypeError. *)
Theorem parse_json_string text s w :
  json_loads text = Return (JStr s) →
  ((∀ field, field ∈ required_fields → ∃ a b, s = a ++ field ++ b) →
   parse text w = (Return (JStr s), w))
  ∧ (∀ pre field post,
       required_fields = pre ++ field :: post →
       (∀ g, g ∈ pre → ∃ a b, s = a ++ g ++ b) →
       (¬ ∃ a b, s = a ++ field ++ b) →
       parse text w = (Raise TypeError, printing w [FieldMissing field])).
Proof.
  intros Hload. split.
  - intros Hall. apply (parse_check_fields_returns _ _ _ _ _ Hload).
    apply check_fields_present. intros f Hf. simpl. f_equal.
    by apply str_contains_spec, Hall.
  - intros pre f post Hreq Hpre Hf.
    apply (parse_check_fields_raises _ _ _ _ Hload). rewrite Hreq.
    apply check_fields_first_missing; [done| |].
    + intros g Hg. simpl. f_equal. by apply str_contains_spec, Hpre.
    + simpl. f_equal. destruct (str_contains f s) eqn:Hc; [|done].
      exfalso. by apply Hf, str_contains_spec.
Qed.

Lemma parse_json_string_witness :
  let text := jtext "'no timeline, no summary, no entities, no topic'" in
  let s := str "no timeline, no summary, no entities, no topic" in
  json_loads text = Return (JStr s)
  ∧ parse text fresh_world = (Return (JStr s), fresh_world).
Proof.
  intros text s.
  assert (json_loads text = Return (JStr s)) as H1 by (vm_compute; reflexivity).
  split; [exact H1|].
  apply (proj1 (parse_json_string text s fresh_world H1)).
  intros f Hf. apply str_contains_spec.
  revert f Hf. apply Forall_forall. repeat constructor.
Defined.

(** X5. Whatever the text, [parse] leaves the files alone and adds to the
    console only diagnostics for required fields, each at most once and in
    the order of [required_fields]. *)
Theorem parse_effects text w :
  ∃ reported,
    reported `sublist_of` required_fields
    ∧ (parse text w).2 = printing w (map FieldMissing reported).
Proof.
  assert (printing w (map FieldMissing []) = w) as Hnil.
  { unfold printing. simpl. rewrite app_nil_r. by destruct w. }
  unfold parse, try_except, bind, lift.
  destruct (json_loads text) as [v|e] eqn:Hload.
  - destruct (check_fields_effects required_fields v w) as (r & Hr & Hw).
    exists r. split; [done|].
    destruct (check_fields required_fields v w) as [[x|e] w1] eqn:Hcheck; [done|].
    simpl in Hw. apply check_fields_raises in Hcheck as ->. done.
  - exists []. split; [apply sublist_nil_l|]. rewrite Hnil. by destruct e.
Qed.

(* ===================================================================== *)
(** ** More on the deduplicator *)
(* ===================================================================== *)

Section DedupAlgebra.

Implicit Types (l : list RawArticle) (seen : gset pystr).

(** A key that was seen counts as much as the articles that carry it
    being absent. *)
Lemma keep_new_filter l : ∀ seen k,
  keep_new (seen ∪ {[k]}) l = keep_new seen (filter (λ b, title_key b ≠ k) l).
Proof.
  induction l as [|a l IH]; intros seen k; [done|].
  rewrite filter_cons. simpl.
  destruct (decide (title_key a ≠ k)) as [Hne|Heq].
  - simpl. destruct (decide (title_key a ∈ seen)) as [Hin|Hin].
    + rewrite decide_True by set_solver. apply IH.
    + rewrite decide_False by set_solver. f_equal.
      rewrite <- IH. f_equal. set_solver.
  - apply dec_stable in Heq. rewrite decide_True by set_solver. apply IH.
Qed.

Lemma keep_new_seen_filter l : ∀ seen,
  keep_new seen l = keep_new ∅ (filter (λ b, title_key b ∉ seen) l).
Proof.
  induction l as [|a l IH]; intros seen; [done|].
  rewrite filter_cons. simpl.
  destruct (decide (title_key a ∈ seen)) as [Hin|Hin].
  - rewrite decide_False by (intros Hn; by apply Hn). apply IH.
  - rewrite decide_True by done. simpl.
    rewrite decide_False by set_solver. f_equal.
    rewrite (IH (seen ∪ {[title_key a]})), keep_new_filter.
    f_equal. rewrite list_filter_filter.
    apply filter_ext_elem_of. intros b _. set_solver.
Qed.

Lemma keep_new_app l1 : ∀ seen l2,
  keep_new seen (l1 ++ l2)
  = keep_new seen l1 ++ keep_new (seen ∪ list_to_set (title_key <$> l1)) l2.
Proof.
  induction l1 as [|a l1 IH]; intros seen l2.
  - simpl. f_equal. set_solver.
  - simpl. destruct (decide (title_key a ∈ seen)) as [Hin|Hin].
    + rewrite IH. do 2 f_equal. set_solver.
    + rewrite IH. simpl. do 3 f_equal. set_solver.
Qed.

(** The keys of what is kept, with those seen before, are the keys of the
    input, with those seen before. *)
Lemma keep_new_keys l : ∀ seen,
  list_to_set (title_key <$> keep_new seen l) ∪ seen
  = list_to_set (title_key <$> l) ∪ seen.
Proof.
  induction l as [|a l IH]; intros seen; [done|].
  rewrite fmap_cons, list_to_set_cons. cbn [keep_new].
  destruct (decide (title_key a ∈ seen)) as [Hin|Hin].
  - rewrite IH. set_solver.
  - rewrite fmap_cons, list_to_set_cons.
    specialize (IH (seen ∪ {[title_key a]})). revert IH.
    generalize (list_to_set (title_key <$> keep_new (seen ∪ {[title_key a]}) l) : gset pystr).
    generalize (list_to_set (title_key <$> l) : gset pystr).
    intros A B HAB. apply set_eq. intros x.
    assert (x ∈ B ∪ (seen ∪ {[title_key a]}) ↔ x ∈ A ∪ (seen ∪ {[title_key a]}))
      as Hx by (by rewrite HAB).
    set_solver.
Qed.

End DedupAlgebra.

(** X6. The first article of a list is always kept, and what follows it in
    the output is the deduplication of the other articles without those
    that share its key. *)
Theorem deduplicate_news_cons (news : RawArticle) (news_list : list RawArticle) :
  deduplicate_news (news :: news_list)
  = news :: deduplicate_news
              (filter (λ other, title_key other ≠ title_key news) news_list).
Proof.
  rewrite !deduplicate_news_keep_new. simpl.
  rewrite decide_False by set_solver. f_equal.
  apply keep_new_filter.
Qed.

(** X7. Deduplicating two lists one after the other: what the first list
    gives is kept as it is, and the second list adds the deduplication of
    its articles whose key does not occur in the first. *)
Theorem deduplicate_news_app (l1 l2 : list RawArticle) :
  deduplicate_news (l1 ++ l2)
  = deduplicate_news l1
    ++ deduplicate_news (filter (λ news, title_key news ∉ title_key <$> l1) l2).
Proof.
  rewrite !deduplicate_news_keep_new, keep_new_app. f_equal.
  rewrite keep_new_seen_filter. f_equal.
  apply filter_ext_elem_of. intros b _. set_solver.
Qed.

(** X8. The lists that [deduplicate_news] returns unchanged are exactly
    those whose dedup keys are pairwise distinct. *)
Theorem deduplicate_news_fixed_point (news_list : list RawArticle) :
  deduplicate_news news_list = news_list ↔ NoDup (title_key <$> news_list).
Proof.
  rewrite deduplicate_news_keep_new. split.
  - intros <-. apply keep_new_NoDup.
  - intros Hnd. apply keep_new_id; [done|]. intros a _. set_solver.
Qed.

(** X9. The number of articles kept is the number of distinct dedup keys
    in the input. *)
Theorem deduplicate_news_length (news_list : list RawArticle) :
  length (deduplicate_news news_list)
  = size (list_to_set (title_key <$> news_list) : gset pystr).
Proof.
  rewrite deduplicate_news_keep_new.
  pose proof (keep_new_keys news_list ∅) as Hkeys.
  rewrite !(right_id_L ∅ (∪)) in Hkeys. rewrite <- Hkeys.
  rewrite size_list_to_set by apply keep_new_NoDup.
  by rewrite length_fmap.
Qed.

(* ===================================================================== *)
(** ** More on the pipeline *)
(* ===================================================================== *)

Section OrchestratorPaths.

Variable env : Env.
Variable topic : pystr.
Implicit Types (w : world) (news : list RawArticle) (data : json) (text : pystr).

Lemma printing_nil w : printing w [] = w.
Proof. unfold printing. rewrite app_nil_r. by destruct w. Qed.

(** [parse] only prints. *)
Lemma parse_world text w : ∃ lines, (parse text w).2 = printing w lines.
Proof.
  unfold parse, try_except, bind, lift.
  destruct (json_loads text) as [v|e] eqn:Hload.
  - destruct (check_fields_effects required_fields v w) as (r & _ & Hw).
    exists (map FieldMissing r).
    destruct (check_fields required_fields v w) as [[x|e] w1] eqn:Hcheck; [done|].
    simpl in Hw. apply check_fields_raises in Hcheck as ->. done.
  - exists []. rewrite printing_nil. by destruct e.
Qed.

(** On a value that is not a dict, the loop can only return that value. *)
Lemma check_fields_keeps_non_dict fields : ∀ data w x w',
  (∀ d, data ≠ JDict d) →
  check_fields fields data w = (Return x, w') → x = data.
Proof.
  induction fields as [|f fields IH]; intros data w x w' Hnd.
  - by intros [= <- _].
  - simpl. unfold bind at 1, lift at 1.
    destruct (contains f data) as [[]|e0]; simpl; [by apply IH| |done].
    unfold bind at 1, print. unfold bind at 1, lift at 1.
    destruct data; try done. by destruct (Hnd pairs).
Qed.

(** [parse] never returns [None]. *)
Lemma parse_returns_not_None text w v w' :
  parse text w = (Return v, w') → v ≠ JNull.
Proof.
  intros Hparse ->.
  destruct (json_loads_outcome text) as [[v Hv]|Hbad].
  - destruct v as [| | | | |items|d];
      try (rewrite (parse_not_a_container _ _ _ Hv) in Hparse; done).
    + revert Hparse. unfold parse, try_except, bind, lift. rewrite Hv. cbv beta iota.
      destruct (check_fields required_fields (JStr s) w) as [[x|e] w1] eqn:Hc.
      * by apply check_fields_keeps_non_dict in Hc as ->.
      * apply check_fields_raises in Hc as ->. done.
    + revert Hparse. unfold parse, try_except, bind, lift. rewrite Hv. cbv beta iota.
      destruct (check_fields required_fields (JList items) w) as [[x|e] w1] eqn:Hc.
      * by apply check_fields_keeps_non_dict in Hc as ->.
      * apply check_fields_raises in Hc as ->. done.
    + rewrite (parse_dict _ _ _ Hv) in Hparse. done.
  - rewrite (parse_not_json _ _ Hbad) in Hparse. done.
Qed.

(** A text that decodes to something other than an object: if [parse]
    returns, it returns that value. *)
Lemma parse_returns_non_dict text v w x w' :
  json_loads text = Return v → (∀ d, v ≠ JDict d) →
  parse text w = (Return x, w') → x = v.
Proof.
  intros Hv Hnd. unfold parse, try_except, bind, lift. rewrite Hv. cbv beta iota.
  destruct (check_fields required_fields v w) as [[y|e] w1] eqn:Hc.
  - apply check_fields_keeps_non_dict in Hc as ->; [|done]. by intros [= <- _].
  - apply check_fields_raises in Hc as ->. done.
Qed.

(** The chain only prints. *)
Lemma llm_chain_invoke_world news w :
  ∃ lines, (llm_chain_invoke env topic news w).2 = printing w lines.
Proof.
  unfold llm_chain_invoke, bind, lift.
  destruct (llm env topic news); [apply parse_world|].
  exists []. by rewrite printing_nil.
Qed.

(** [extract_entities_and_summary] always returns, and only prints. *)
Lemma extract_outcome news w :
  ∃ v lines,
    extract_entities_and_summary env topic news w = (Return v, printing w lines).
Proof.
  unfold extract_entities_and_summary, try_except.
  destruct (llm_chain_invoke_world news w) as [lines Hw].
  destruct (llm_chain_invoke env topic news w) as [[v|e] w1]; simpl in Hw; subst w1.
  - by exists v, lines.
  - eexists _, _. unfold bind, print, ret. by rewrite printing_printing.
Qed.

(** [generate_html] changes nothing. *)
Lemma generate_html_world data news w :
  ∃ r, generate_html env data news w = (r, w).
Proof.
  unfold generate_html. autounfold with monad_ops.
  destruct (files w !! str "template.html") as [tpl|]; [|by eexists].
  destruct (Template env tpl) as [[]|e]; simpl; [|by eexists].
  destruct (getitem data (str "topic")); [|by eexists].
  destruct (getitem data (str "summary")); [|by eexists].
  destruct (getitem data (str "entities")); [|by eexists].
  destruct (getitem data (str "timeline")); by eexists.
Qed.

(** Given anything but a dict, [generate_html] raises. *)
Lemma generate_html_non_dict data news w :
  (∀ d, data ≠ JDict d) → ∃ e, generate_html env data news w = (Raise e, w).
Proof.
  intros Hnd. unfold generate_html. autounfold with monad_ops.
  destruct (files w !! str "template.html") as [tpl|]; [|by eexists].
  destruct (Template env tpl) as [[]|e]; simpl; [|by eexists].
  destruct data; try by eexists. by destruct (Hnd pairs).
Qed.

(** The two ways a run can end: with an exception and the files as they
    were, or with the output file written, the closing line printed and the
    path returned. *)
Lemma run_pipeline_cases output_file w :
  (∃ e w', run_pipeline env topic output_file w = (Raise e, w')
           ∧ files w' = files w)
  ∨ (∃ html lines,
       run_pipeline env topic output_file w
       = (Return output_file,
          {| stdout := stdout w ++ lines ++ [Finished output_file];
             files := <[output_file := html]> (files w) |})
       ∧ writable env output_file = true).
Proof.
  unfold run_pipeline.
  do 2 (erewrite bind_Return by apply print_printing).
  destruct (get_cnn_news_with_content env topic) as [news|e] eqn:Hfetch.
  2:{ left. eexists _, _. split.
      - erewrite bind_Raise; [done|].
        unfold fetch_news_data. autounfold with monad_ops. by rewrite Hfetch.
      - done. }
  erewrite bind_Return by (by apply fetch_news_data_returns).
  erewrite bind_Return by apply print_printing. cbv zeta.
  erewrite bind_Return by apply print_printing.
  match goal with
  | |- context [bind (extract_entities_and_summary env topic ?l) _ ?w0] =>
      destruct (extract_outcome l w0) as (v & lines & Hext)
  end.
  erewrite bind_Return by exact Hext.
  erewrite bind_Return by apply print_printing.
  rewrite !printing_printing.
  match goal with
  | |- context [bind (generate_html env v ?l) _ ?w0] =>
      destruct (generate_html_world v l w0) as ([html|e] & Hgen)
  end.
  2:{ left. eexists _, _. split; [by erewrite bind_Raise|]. done. }
  erewrite bind_Return by exact Hgen.
  unfold write_file, bind at 1.
  destruct (writable env output_file) eqn:Hwr.
  2:{ left. eexists _, _. split; [done|]. done. }
  right. eexists html, _. split; [|done].
  unfold bind, print, ret, printing. simpl. by rewrite <- app_assoc.
Qed.

End OrchestratorPaths.


(** X11. After the validator, rendering is never refused for a missing
    field: when [parse] has returned for a text that is not JSON or is an
    object, and the template is there and accepted, [generate_html] finds
    the four fields and its outcome is that of the renderer, called with
    these fields, the articles and the date; nothing is printed or
    written. *)
Theorem generate_html_after_parse env text w0 data w1 news w tpl :
  json_loads text = Raise JSONDecodeError ∨ (∃ d, json_loads text = Return (JDict d)) →
  parse text w0 = (Return data, w1) →
  files w !! str "template.html" = Some tpl →
  Template env tpl = Return tt →
  ∃ d' vt vs ve vl,
    data = JDict d'
    ∧ dict_get (str "topic") d' = Some vt
    ∧ dict_get (str "summary") d' = Some vs
    ∧ dict_get (str "entities") d' = Some ve
    ∧ dict_get (str "timeline") d' = Some vl
    ∧ generate_html env data news w
      = (render env tpl {| r_topic := vt; r_summary := vs; r_entities := ve;
                           r_timeline := vl; r_news_articles := news;
                           r_generated_date := now env |}, w).
Proof.
  intros Hload Hparse Hfile Htpl.
  assert (∃ d', data = JDict d'
                ∧ ∀ field, field ∈ required_fields → is_Some (dict_get field d'))
    as (d' & -> & Hall).
  { destruct Hload as [Hbad|[d Hd]].
    - rewrite (parse_not_json _ _ Hbad) in Hparse. injection Hparse as <- _.
      eexists. split; [done|]. intros field Hf. apply dict_has_get.
      revert field Hf. apply Forall_forall. vm_compute. repeat constructor.
    - rewrite (parse_dict _ _ _ Hd) in Hparse. injection Hparse as <- _.
      eexists. split; [done|]. intros field Hf. by apply completed_has_required. }
  destruct (Hall (str "topic")) as [vt Ht]; [set_solver|].
  destruct (Hall (str "summary")) as [vs Hs]; [set_solver|].
  destruct (Hall (str "entities")) as [ve He]; [set_solver|].
  destruct (Hall (str "timeline")) as [vl Hl]; [set_solver|].
  exists d', vt, vs, ve, vl. split_and!; [done..|].
  unfold generate_html. autounfold with monad_ops.
  rewrite Hfile, Htpl. simpl. by rewrite Ht, Hs, He, Hl.
Qed.

Lemma generate_html_after_parse_witness :
  let env := example_env [] (Return []) in
  (json_loads [] = Raise JSONDecodeError ∨ (∃ d, json_loads [] = Return (JDict d)))
  ∧ parse [] fresh_world = (Return all_na, fresh_world)
  ∧ files fresh_world !! str "template.html" = Some (str "<html>{{ topic }}</html>")
  ∧ Template env (str "<html>{{ topic }}</html>") = Return tt
  ∧ ∃ d' vt vs ve vl,
      all_na = JDict d'
      ∧ dict_get (str "topic") d' = Some vt
      ∧ dict_get (str "summary") d' = Some vs
      ∧ dict_get (str "entities") d' = Some ve
      ∧ dict_get (str "timeline") d' = Some vl
      ∧ generate_html env all_na [] fresh_world
        = (render env (str "<html>{{ topic }}</html>")
             {| r_topic := vt; r_summary := vs; r_entities := ve;
                r_timeline := vl; r_news_articles := [];
                r_generated_date := now env |}, fresh_world).
Proof.
  intros env.
  assert (json_loads [] = Raise JSONDecodeError) as H1 by (vm_compute; reflexivity).
  assert (parse [] fresh_world = (Return all_na, fresh_world)) as H2
    by (vm_compute; reflexivity).
  assert (files fresh_world !! str "template.html" = Some (str "<html>{{ topic }}</html>"))
    as H3 by (vm_compute; reflexivity).
  split_and!; [by left|exact H2|exact H3|reflexivity|].
  exact (generate_html_after_parse env [] fresh_world all_na fresh_world []
           fresh_world _ (or_introl H1) H2 H3 eq_refl).
Defined.





(** X14. The whole pipeline, when every stage succeeds: the model is asked
    about the deduplicated articles; the renderer receives the decoded
    object completed with "na", the deduplicated articles and the date; its
    output is written to the output file and the path returned.  The
    console shows the number of fetched articles before deduplication and
    one diagnostic per missing field. *)
Theorem run_pipeline_document env topic output_file w news text d tpl vt vs ve vl html :
  get_cnn_news_with_content env topic = Return news →
  llm env topic (deduplicate_news news) = Return text →
  json_loads text = Return (JDict d) →
  files w !! str "template.html" = Some tpl →
  Template env tpl = Return tt →
  dict_get (str "topic") (completed d) = Some vt →
  dict_get (str "summary") (completed d) = Some vs →
  dict_get (str "entities") (completed d) = Some ve →
  dict_get (str "timeline") (completed d) = Some vl →
  render env tpl {| r_topic := vt; r_summary := vs; r_entities := ve;
                    r_timeline := vl; r_news_articles := deduplicate_news news;
                    r_generated_date := now env |} = Return html →
  writable env output_file = true →
  run_pipeline env topic output_file w
  = (Return output_file,
     {| stdout := stdout w
                  ++ [Started topic; Fetching; CnnStart; CnnDone (length news);
                      Deduplicating; Summarising]
                  ++ map FieldMissing (missing_fields d)
                  ++ [Rendering; Finished output_file];
        files := <[output_file := html]> (files w) |}).
Proof.
  intros Hfetch Hllm Hload Hfile Htpl Ht Hs He Hl Hrender Hwr.
  unfold run_pipeline.
  do 2 (erewrite bind_Return by apply print_printing).
  erewrite bind_Return by (by apply fetch_news_data_returns).
  erewrite bind_Return by apply print_printing. cbv zeta.
  erewrite bind_Return by apply print_printing.
  erewrite bind_Return
    by (eapply extract_returns; [exact Hllm | by apply parse_dict]).
  erewrite bind_Return by apply print_printing.
  erewrite bind_Return by (by eapply generate_html_returns).
  unfold write_file, bind at 1. rewrite Hwr.
  unfold bind, print, ret, printing. simpl.
  by rewrite <- !app_assoc.
Qed.

Lemma run_pipeline_document_witness :
  let a := {| title := str "Alpha wins award"; url := str "https://cnn.com/a";
              content := str "Alpha won."; publish_date := str "2025-01-01";
              source := str "CNN" |} in
  let env := example_env [a; a] (Return (jtext "{'topic':'T','summary':'S'}")) in
  run_pipeline env (str "alpha") (str "out.html") fresh_world
  = (Return (str "out.html"),
     {| stdout := [Started (str "alpha"); Fetching; CnnStart; CnnDone 2;
                   Deduplicating; Summarising;
                   FieldMissing (str "entities"); FieldMissing (str "timeline");
                   Rendering; Finished (str "out.html")];
        files := <[str "out.html" := str "<h1>T</h1>"]> (files fresh_world) |}).
Proof.
  intros a env.
  apply (run_pipeline_document env (str "alpha") (str "out.html") fresh_world
           [a; a] (jtext "{'topic':'T','summary':'S'}")
           [(str "topic", JStr (str "T")); (str "summary", JStr (str "S"))]
           (str "<html>{{ topic }}</html>")
           (JStr (str "T")) (JStr (str "S")) (JStr (str "na")) (JStr (str "na"))
           (str "<h1>T</h1>"));
    vm_compute; reflexivity.
Defined.

(** X15. An answer that is not JSON does not stop the run: the renderer
    receives "na" for the four fields, and the document is written. *)
Theorem run_pipeline_undecodable_answer env topic output_file w news text tpl html :
  get_cnn_news_with_content env topic = Return news →
  llm env topic (deduplicate_news news) = Return text →
  json_loads text = Raise JSONDecodeError →
  files w !! str "template.html" = Some tpl →
  Template env tpl = Return tt →
  render env tpl {| r_topic := JStr (str "na"); r_summary := JStr (str "na");
                    r_entities := JStr (str "na"); r_timeline := JStr (str "na");
                    r_news_articles := deduplicate_news news;
                    r_generated_date := now env |} = Return html →
  writable env output_file = true →
  run_pipeline env topic output_file w
  = (Return output_file,
     {| stdout := stdout w
                  ++ [Started topic; Fetching; CnnStart; CnnDone (length news);
                      Deduplicating; Summarising; Rendering; Finished output_file];
        files := <[output_file := html]> (files w) |}).
Proof.
  intros Hfetch Hllm Hload Hfile Htpl Hrender Hwr.
  unfold run_pipeline.
  do 2 (erewrite bind_Return by apply print_printing).
  erewrite bind_Return by (by apply fetch_news_data_returns).
  erewrite bind_Return by apply print_printing. cbv zeta.
  erewrite bind_Return by apply print_printing.
  erewrite bind_Return
    by (eapply extract_returns; [exact Hllm | by apply parse_not_json]).
  erewrite bind_Return by apply print_printing.
  erewrite bind_Return
    by (eapply generate_html_returns; [exact Hfile|exact Htpl| | | | |exact Hrender];
        reflexivity).
  unfold write_file, bind at 1. rewrite Hwr.
  unfold bind, print, ret, printing. simpl.
  by rewrite <- !app_assoc.
Qed.

Lemma run_pipeline_undecodable_answer_witness :
  let env := example_env [] (Return (str "Sorry, I cannot help with that.")) in
  json_loads (str "Sorry, I cannot help with that.") = Raise JSONDecodeError
  ∧ run_pipeline env (str "alpha") (str "out.html") fresh_world
    = (Return (str "out.html"),
       {| stdout := stdout fresh_world
                    ++ [Started (str "alpha"); Fetching; CnnStart; CnnDone (length (@nil RawArticle));
                        Deduplicating; Summarising; Rendering;
                        Finished (str "out.html")];
          files := <[str "out.html" := str "<h1>na</h1>"]> (files fresh_world) |}).
Proof.
  intros env.
  assert (json_loads (str "Sorry, I cannot help with that.") = Raise JSONDecodeError)
    as Hload by (vm_compute; reflexivity).
  split; [exact Hload|].
  apply (run_pipeline_undecodable_answer env (str "alpha") (str "out.html")
           fresh_world [] (str "Sorry, I cannot help with that.")
           (str "<html>{{ topic }}</html>") (str "<h1>na</h1>"));
    try exact Hload; vm_compute; reflexivity.
Defined.

(** X16. An answer that is valid JSON but not an object never yields a
    document: the parser raises inside the chain, or returns the list or
    string, and in both cases [generate_html] raises; the run ends with an
    exception and the files are as they were. *)
Theorem run_pipeline_non_object_answer env topic output_file w news text v :
  get_cnn_news_with_content env topic = Return news →
  llm env topic (deduplicate_news news) = Return text →
  json_loads text = Return v →
  (∀ d, v ≠ JDict d) →
  ∃ e w', run_pipeline env topic output_file w = (Raise e, w')
          ∧ files w' = files w.
Proof.
  intros Hfetch Hllm Hload Hnd.
  unfold run_pipeline.
  do 2 (erewrite bind_Return by apply print_printing).
  erewrite bind_Return by (by apply fetch_news_data_returns).
  erewrite bind_Return by apply print_printing. cbv zeta.
  erewrite bind_Return by apply print_printing.
  match goal with
  | |- context [bind (extract_entities_and_summary env topic ?l) _ ?w0] =>
      destruct (extract_outcome env topic l w0) as (x & lines & Hext);
      assert (∀ d, x ≠ JDict d) as Hx;
      [|erewrite bind_Return by exact Hext]
  end.
  { revert Hext. unfold extract_entities_and_summary, llm_chain_invoke.
    unfold try_except, bind at 1, lift. rewrite Hllm.
    match goal with
    | |- context [parse text ?w0] =>
        destruct (parse text w0) as [[y|e] w1] eqn:Hparse
    end.
    - apply (parse_returns_non_dict _ _ _ _ _ Hload Hnd) in Hparse as ->.
      by intros [= <- _].
    - unfold bind, print, ret. by intros [= <- _]. }
  erewrite bind_Return by apply print_printing.
  match goal with
  | |- context [bind (generate_html env x ?l) _ ?w0] =>
      destruct (generate_html_non_dict env x l w0 Hx) as [e He]
  end.
  exists e. eexists. split; [by erewrite bind_Raise|]. done.
Qed.

Lemma run_pipeline_non_object_answer_witness :
  let text := jtext "['topic', 'entities', 'summary', 'timeline']" in
  let env := example_env [] (Return text) in
  json_loads text = Return (JList [JStr (str "topic"); JStr (str "entities");
                                   JStr (str "summary"); JStr (str "timeline")])
  ∧ ∃ e w', run_pipeline env (str "alpha") (str "out.html") fresh_world = (Raise e, w')
            ∧ files w' = files fresh_world.
Proof.
  intros text env.
  assert (json_loads text = Return (JList [JStr (str "topic"); JStr (str "entities");
                                           JStr (str "summary"); JStr (str "timeline")]))
    as Hload by (vm_compute; reflexivity).
  split; [exact Hload|].
  apply (run_pipeline_non_object_answer env (str "alpha") (str "out.html")
           fresh_world [] text _ eq_refl eq_refl Hload).
  intros d Hd. discriminate Hd.
Defined.

(** X17. When the fetcher raises, its exception leaves [run_pipeline] at
    once: the three opening lines are on the console, the model is not
    asked and no file is touched. *)
Theorem run_pipeline_fetch_raises env topic output_file w e :
  get_cnn_news_with_content env topic = Raise e →
  run_pipeline env topic output_file w
  = (Raise e, printing w [Started topic; Fetching; CnnStart]).
Proof.
  intros Hfetch. unfold run_pipeline.
  do 2 (erewrite bind_Return by apply print_printing).
  erewrite bind_Raise; [|unfold fetch_news_data; autounfold with monad_ops;
                         by rewrite Hfetch].
  by rewrite !printing_printing.
Qed.

Lemma run_pipeline_fetch_raises_witness :
  let env := {| get_cnn_news_with_content := λ _, Raise RequestException;
                llm := λ _ _, Return (str "{}");
                Template := λ _, Return tt;
                render := λ tpl _, Return tpl;
                now := [];
                writable := λ _, true |} in
  get_cnn_news_with_content env (str "alpha") = Raise RequestException
  ∧ run_pipeline env (str "alpha") (str "out.html") fresh_world
    = (Raise RequestException,
       printing fresh_world [Started (str "alpha"); Fetching; CnnStart]).
Proof.
  intros env. split; [reflexivity|].
  exact (run_pipeline_fetch_raises env (str "alpha") (str "out.html") fresh_world
           RequestException eq_refl).
Defined.

(* ===================================================================== *)
(** ** More on the AP News fetcher *)
(* ===================================================================== *)

Section ApFetcherPaths.

Variable web : Web.
Implicit Types (w : world) (cards : list (option Anchor))
  (news_list : list Headline) (detailed : list RawArticle).

(** When every link found has an [href], the loop adds the headlines of
    the cards, in order, until [max_articles] entries are there. *)
Lemma collect_cards_linked cards max_articles : ∀ news_list,
  (∀ a_tag, Some a_tag ∈ cards → is_Some (a_href a_tag)) →
  collect_cards cards max_articles news_list
  = Return (news_list
            ++ take (Z.to_nat max_articles - length news_list)
                 (omap card_headline cards)).
Proof.
  induction cards as [|card cards IH]; intros news_list Hlinked.
  - simpl. by rewrite take_nil, app_nil_r.
  - simpl. destruct (Z.geb_spec (Z.of_nat (length news_list)) max_articles) as [Hge|Hlt].
    { replace (Z.to_nat max_articles - length news_list) with 0 by lia.
      by rewrite take_0, app_nil_r. }
    assert (∀ a_tag, Some a_tag ∈ cards → is_Some (a_href a_tag)) as Hrest.
    { intros a Ha. apply Hlinked. by right. }
    destruct card as [a_tag|]; [|by apply IH].
    destruct (Hlinked a_tag) as [link Hlink]; [by left|].
    rewrite Hlink. rewrite IH by done. simpl. rewrite Hlink. simpl.
    rewrite length_app. simpl.
    replace (Z.to_nat max_articles - length news_list)
      with (S (Z.to_nat max_articles - (length news_list + 1))) by lia.
    simpl. by rewrite <- app_assoc.
Qed.

(** A link without [href] after cards whose links all have one. *)
Lemma collect_cards_broken pre a_tag post max_articles : ∀ news_list,
  (∀ b, Some b ∈ pre → is_Some (a_href b)) →
  a_href a_tag = None →
  collect_cards (pre ++ Some a_tag :: post) max_articles news_list
  = if decide (Z.of_nat (length news_list + length (omap card_headline pre))
               < max_articles)%Z
    then Raise KeyError
    else Return (news_list
                 ++ take (Z.to_nat max_articles - length news_list)
                      (omap card_headline pre)).
Proof.
  intros news_list Hlinked Hbroken. revert news_list.
  induction pre as [|card pre IH]; intros news_list.
  - simpl. rewrite Hbroken, take_nil, app_nil_r, Nat.add_0_r.
    destruct (Z.geb_spec (Z.of_nat (length news_list)) max_articles) as [Hge|Hlt].
    + by rewrite decide_False by lia.
    + by rewrite decide_True by lia.
  - assert (∀ b, Some b ∈ pre → is_Some (a_href b)) as Hrest.
    { intros b Hb. apply Hlinked. by right. }
    simpl.
    destruct (Z.geb_spec (Z.of_nat (length news_list)) max_articles) as [Hge|Hlt].
    { rewrite decide_False by lia.
      replace (Z.to_nat max_articles - length news_list) with 0 by lia.
      by rewrite take_0, app_nil_r. }
    destruct card as [b|]; [|by apply IH].
    destruct (Hlinked b) as [link Hlink]; [by left|].
    rewrite Hlink. rewrite IH by done. simpl. rewrite Hlink. simpl.
    rewrite length_app. simpl.
    replace (Z.to_nat max_articles - length news_list)
      with (S (Z.to_nat max_articles - (length news_list + 1))) by lia.
    simpl. rewrite <- app_assoc. simpl.
    change (list_omap (option Anchor) Headline card_headline pre)
      with (omap card_headline pre).
    repeat case_decide; (done || lia).
Qed.

(** What the detail loop adds comes from the headlines, in their order. *)
Lemma crawl_details_selects n news_list : ∀ i detailed w l w',
  crawl_details web n i news_list detailed w = (Return l, w') →
  ∃ extra,
    l = detailed ++ extra
    ∧ (λ news, (title news, url news)) <$> extra
      `sublist_of` (λ news, (h_title news, h_url news)) <$> news_list.
Proof.
  induction news_list as [|news news_list IH]; intros i detailed w l w'; simpl.
  - intros [= <- _]. exists []. by rewrite app_nil_r.
  - erewrite bind_Return by apply print_printing.
    destruct (get_ap_article_content_returns web i (h_url news)
                (printing w [ApProgress i n])) as (body & w1 & Hbody).
    erewrite bind_Return by exact Hbody.
    intros (extra & -> & Hsub)%IH.
    destruct (b_content body) as [|c t].
    + exists extra. split; [done|]. by apply sublist_cons.
    + eexists (_ :: extra). split; [by rewrite <- app_assoc|].
      rewrite !fmap_cons. simpl. by apply sublist_skip.
Qed.

(** The fetcher only prints. *)
Lemma get_ap_article_content_world i url w :
  ∃ body lines,
    get_ap_article_content web i url w
    = (Return body, printing w (ApCrawling url :: lines))
    ∧ (lines = []
       ∨ ∃ e, lines = [ApContentFailed e]
              ∧ b_content body = [] ∧ b_publish_date body = []).
Proof.
  unfold get_ap_article_content. autounfold with monad_ops. simpl.
  destruct (article web i url) as [page|e].
  - destruct (published_time page) as [[|c t]|].
    + eexists _, []. split; [done|by left].
    + destruct (isodate web _) as [date|e].
      * eexists _, []. split; [done|by left].
      * eexists _, [_]. split; [by rewrite printing_printing|]. right. by eexists.
    + eexists _, []. split; [done|by left].
  - eexists _, [_]. split; [by rewrite printing_printing|]. right. by eexists.
Qed.

Lemma crawl_details_world n news_list : ∀ i detailed w,
  ∃ l lines, crawl_details web n i news_list detailed w = (Return l, printing w lines).
Proof.
  induction news_list as [|news news_list IH]; intros i detailed w; simpl.
  - exists detailed, []. by rewrite printing_nil.
  - erewrite bind_Return by apply print_printing.
    destruct (get_ap_article_content_world i (h_url news) (printing w [ApProgress i n]))
      as (body & lines & Hbody & _).
    erewrite bind_Return by exact Hbody.
    match goal with
    | |- context [crawl_details web n (S i) news_list ?d ?w0] =>
        destruct (IH (S i) d w0) as (l & lines' & Hl)
    end.
    rewrite Hl. rewrite !printing_printing. by eexists _, _.
Qed.

(** When every request fails, the detail loop adds nothing. *)
Lemma crawl_details_all_fail n news_list : ∀ i detailed w,
  (∀ j u, ∃ e, article web j u = Raise e) →
  ∃ w', crawl_details web n i news_list detailed w = (Return detailed, w').
Proof.
  induction news_list as [|news news_list IH]; intros i detailed w Hfail; simpl.
  - by eexists.
  - erewrite bind_Return by apply print_printing.
    destruct (Hfail i (h_url news)) as [e He].
    erewrite bind_Return.
    2:{ unfold get_ap_article_content. autounfold with monad_ops. simpl.
        rewrite He. reflexivity. }
    simpl. by apply IH.
Qed.

(** The condition on links, card by card. *)
Lemma linked_Forall cards :
  Forall (λ card, match card with
                  | Some a_tag => is_Some (a_href a_tag)
                  | None => True
                  end) cards →
  ∀ a_tag, Some a_tag ∈ cards → is_Some (a_href a_tag).
Proof. intros HF a Ha. rewrite Forall_forall in HF. exact (HF _ Ha). Qed.

End ApFetcherPaths.

(** X18. When the driver starts, the search page loads and every link in
    a result card has an [href], the list stage returns the headlines of
    the first [max_articles] cards that have a link, in page order; cards
    without a link are skipped, and nothing is printed. *)
Theorem get_ap_news_list_selenium_first_links web topic max_articles w cards :
  edge web = Return tt →
  search web topic = Return cards →
  (∀ a_tag, Some a_tag ∈ cards → is_Some (a_href a_tag)) →
  get_ap_news_list_selenium web topic max_articles w
  = (Return (take (Z.to_nat max_articles) (omap card_headline cards)), w).
Proof.
  intros Hedge Hsearch Hlinked.
  rewrite get_ap_news_list_selenium_outcome, Hedge, Hsearch.
  rewrite collect_cards_linked by done. simpl.
  by rewrite Nat.sub_0_r.
Qed.

Lemma get_ap_news_list_selenium_first_links_witness :
  get_ap_news_list_selenium example_web (str "award") 1 fresh_world
  = (Return [{| h_title := str "Alpha wins award";
                h_url := str "https://apnews.com/article/a" |}], fresh_world).
Proof.
  apply (get_ap_news_list_selenium_first_links example_web (str "award") 1 fresh_world
           [Some {| a_text := str "Alpha wins award";
                    a_href := Some (str "https://apnews.com/article/a") |};
            None;
            Some {| a_text := str "Beta loses";
                    a_href := Some (str "https://apnews.com/article/b") |}]);
    [reflexivity|reflexivity|].
  apply linked_Forall. repeat constructor; by eexists.
Defined.

(** X19. A link without [href] is fatal only when the loop reaches it:
    when the cards before it give fewer than [max_articles] headlines, the
    list stage, and with it the fetcher, raises KeyError; otherwise the
    limit stops the loop first and the first [max_articles] headlines are
    returned. *)
Theorem get_ap_news_list_selenium_missing_href
  web topic max_articles w pre a_tag post :
  edge web = Return tt →
  search web topic = Return (pre ++ Some a_tag :: post) →
  (∀ b, Some b ∈ pre → is_Some (a_href b)) →
  a_href a_tag = None →
  ((Z.of_nat (length (omap card_headline pre)) < max_articles)%Z →
   get_ap_news_list_selenium web topic max_articles w = (Raise KeyError, w)
   ∧ get_ap_news_with_content web topic max_articles w = (Raise KeyError, w))
  ∧ ((max_articles ≤ Z.of_nat (length (omap card_headline pre)))%Z →
     get_ap_news_list_selenium web topic max_articles w
     = (Return (take (Z.to_nat max_articles) (omap card_headline pre)), w)).
Proof.
  intros Hedge Hsearch Hlinked Hbroken.
  assert (get_ap_news_list_selenium web topic max_articles w
          = (if decide (Z.of_nat (length (omap card_headline pre)) < max_articles)%Z
             then Raise KeyError
             else Return (take (Z.to_nat max_articles) (omap card_headline pre)), w))
    as Hlist.
  { rewrite get_ap_news_list_selenium_outcome, Hedge, Hsearch.
    rewrite collect_cards_broken by done. simpl. by rewrite Nat.sub_0_r. }
  split.
  - intros Hlt. rewrite decide_True in Hlist by done. split; [done|].
    unfold get_ap_news_with_content. by erewrite bind_Raise.
  - intros Hge. by rewrite decide_False in Hlist by lia.
Qed.

Lemma get_ap_news_list_selenium_missing_href_witness :
  let linked := {| a_text := str "Alpha wins award";
                   a_href := Some (str "https://apnews.com/article/a") |} in
  let broken := {| a_text := str "Beta loses"; a_href := None |} in
  let web := {| edge := Return tt;
                search := λ _, Return [Some linked; Some broken];
                article := λ _ _, Raise RequestException;
                isodate := λ _, Raise ValueError |} in
  get_ap_news_with_content web (str "award") max_articles_count fresh_world
  = (Raise KeyError, fresh_world)
  ∧ get_ap_news_list_selenium web (str "award") 1 fresh_world
    = (Return [{| h_title := str "Alpha wins award";
                  h_url := str "https://apnews.com/article/a" |}], fresh_world).
Proof.
  intros linked broken web.
  assert (∀ b, Some b ∈ [Some linked] → is_Some (a_href b)) as Hlinked.
  { apply linked_Forall. repeat constructor. by eexists. }
  split.
  - apply (proj1 (get_ap_news_list_selenium_missing_href web (str "award")
                    max_articles_count fresh_world [Some linked] broken []
                    eq_refl eq_refl Hlinked eq_refl)).
    vm_compute. reflexivity.
  - apply (proj2 (get_ap_news_list_selenium_missing_href web (str "award")
                    1 fresh_world [Some linked] broken []
                    eq_refl eq_refl Hlinked eq_refl)).
    vm_compute. discriminate.
Defined.

(** X20. [get_ap_article_content] never raises and only prints: the line
    with the url comes first; either nothing else is printed, or the
    failure is printed and both the content and the date returned are
    empty. *)
Theorem get_ap_article_content_never_raises web i url w :
  ∃ body lines,
    get_ap_article_content web i url w
    = (Return body, printing w (ApCrawling url :: lines))
    ∧ (lines = []
       ∨ ∃ e, lines = [ApContentFailed e]
              ∧ b_content body = [] ∧ b_publish_date body = []).
Proof.
  unfold get_ap_article_content. autounfold with monad_ops. simpl.
  destruct (article web i url) as [page|e].
  - destruct (published_time page) as [[|c t]|].
    + eexists _, []. split; [done|by left].
    + destruct (isodate web _) as [date|e].
      * eexists _, []. split; [done|by left].
      * eexists _, [_]. split; [by rewrite printing_printing|]. right. by eexists.
    + eexists _, []. split; [done|by left].
  - eexists _, [_]. split; [by rewrite printing_printing|]. right. by eexists.
Qed.

(** X21. A published time that cannot be parsed costs the article its
    body: the page was fetched and may have paragraphs, but the exception
    of the date ends in the [except] branch, which returns empty content
    and an empty date; the fetcher then drops the article. *)
Theorem get_ap_article_content_bad_date web i url w page stamp e :
  article web i url = Return page →
  published_time page = Some stamp →
  stamp ≠ [] →
  isodate web (replace_char (chr "Z") (str "+00:00") stamp) = Raise e →
  get_ap_article_content web i url w
  = (Return {| b_content := []; b_publish_date := [] |},
     printing w [ApCrawling url; ApContentFailed e]).
Proof.
  intros Hpage Hstamp Hne Hdate.
  unfold get_ap_article_content. autounfold with monad_ops. cbv beta iota.
  rewrite Hpage. cbv beta iota. rewrite Hstamp.
  destruct stamp as [|c t]; [done|].
  rewrite Hdate. by rewrite printing_printing.
Qed.

Lemma get_ap_article_content_bad_date_witness :
  let page := {| paragraphs := [str "Alpha won."];
                 published_time := Some (str "yesterday") |} in
  let web := {| edge := Return tt;
                search := λ _, Return [];
                article := λ _ _, Return page;
                isodate := λ _, Raise ValueError |} in
  get_ap_article_content web 1 (str "https://apnews.com/article/a") fresh_world
  = (Return {| b_content := []; b_publish_date := [] |},
     printing fresh_world [ApCrawling (str "https://apnews.com/article/a");
                           ApContentFailed ValueError]).
Proof.
  intros page web.
  apply (get_ap_article_content_bad_date web 1 (str "https://apnews.com/article/a")
           fresh_world page (str "yesterday") ValueError);
    try reflexivity.
  vm_compute. discriminate.
Defined.

(** X22. The articles that the fetcher returns are taken from the
    headlines of the list stage, title and url unchanged, in the same
    order, at most one per headline. *)
Theorem get_ap_news_with_content_selects web topic max_articles w news_list l w' :
  get_ap_news_list_selenium web topic max_articles w = (Return news_list, w) →
  get_ap_news_with_content web topic max_articles w = (Return l, w') →
  (λ news, (title news, url news)) <$> l
  `sublist_of` (λ news, (h_title news, h_url news)) <$> news_list.
Proof.
  intros Hlist. unfold get_ap_news_with_content.
  erewrite bind_Return by exact Hlist.
  destruct news_list as [|news news_list].
  - unfold bind, print, ret. by intros [= <- _].
  - erewrite bind_Return by apply print_printing.
    by intros (extra & -> & Hsub)%crawl_details_selects.
Qed.

Lemma get_ap_news_with_content_selects_witness :
  let news_list := [{| h_title := str "Alpha wins award";
                       h_url := str "https://apnews.com/article/a" |};
                    {| h_title := str "Beta loses";
                       h_url := str "https://apnews.com/article/b" |}] in
  let l := [{| title := str "Alpha wins award";
               url := str "https://apnews.com/article/a";
               content := str "Alpha won. More soon.";
               publish_date := str "2025-01-02";
               source := str "AP News" |}] in
  get_ap_news_list_selenium example_web (str "award") max_articles_count fresh_world
  = (Return news_list, fresh_world)
  ∧ (λ news, (title news, url news)) <$> l
    `sublist_of` (λ news, (h_title news, h_url news)) <$> news_list.
Proof.
  intros news_list l.
  assert (get_ap_news_list_selenium example_web (str "award") max_articles_count
            fresh_world = (Return news_list, fresh_world)) as Hlist
    by (vm_compute; reflexivity).
  split; [exact Hlist|].
  apply (get_ap_news_with_content_selects example_web (str "award")
           max_articles_count fresh_world news_list l
           (printing fresh_world
              [ApFound 2;
               ApProgress 1 2; ApCrawling (str "https://apnews.com/article/a");
               ApProgress 2 2; ApCrawling (str "https://apnews.com/article/b")])
           Hlist).
  vm_compute. reflexivity.
Defined.

(** X23. When the list stage returns and every article request fails, the
    fetcher raises nothing and returns the empty list. *)
Theorem get_ap_news_with_content_all_requests_fail
  web topic max_articles w news_list :
  get_ap_news_list_selenium web topic max_articles w = (Return news_list, w) →
  (∀ i url, ∃ e, article web i url = Raise e) →
  ∃ w', get_ap_news_with_content web topic max_articles w = (Return [], w').
Proof.
  intros Hlist Hfail. unfold get_ap_news_with_content.
  erewrite bind_Return by exact Hlist.
  destruct news_list as [|news news_list].
  - by eexists.
  - erewrite bind_Return by apply print_printing.
    by apply crawl_details_all_fail.
Qed.

Lemma get_ap_news_with_content_all_requests_fail_witness :
  let web := {| edge := Return tt;
                search := λ _, Return [Some {| a_text := str "Alpha wins award";
                                               a_href := Some (str "https://apnews.com/article/a") |}];
                article := λ _ _, Raise RequestException;
                isodate := λ _, Raise ValueError |} in
  ∃ w', get_ap_news_with_content web (str "award") max_articles_count fresh_world
        = (Return [], w').
Proof.
  intros web.
  apply (get_ap_news_with_content_all_requests_fail web (str "award")
           max_articles_count fresh_world
           [{| h_title := str "Alpha wins award";
               h_url := str "https://apnews.com/article/a" |}]).
  - vm_compute. reflexivity.
  - intros i url. by eexists.
Defined.

(** X24. With a limit of zero or less, or a page on which no card has a
    link, a fetcher whose driver starts and whose page loads returns the
    empty list after the line saying that nothing was found, and requests
    no article. *)
Theorem get_ap_news_with_content_nothing_found web topic max_articles w cards :
  edge web = Return tt →
  search web topic = Return cards →
  (max_articles ≤ 0)%Z ∨ (∀ card, card ∈ cards → card = None) →
  get_ap_news_with_content web topic max_articles w
  = (Return [], printing w [ApNothingFound]).
Proof.
  intros Hedge Hsearch Hnone.
  assert (collect_cards cards max_articles [] = Return []) as Hcollect.
  { destruct Hnone as [Hmax|Hcards].
    - destruct cards as [|card cards]; [done|]. simpl.
      destruct (Z.geb_spec (Z.of_nat 0) max_articles); [done|lia].
    - rewrite collect_cards_linked.
      + simpl. replace (omap card_headline cards) with (@nil Headline);
          [by rewrite take_nil|].
        clear Hsearch. induction cards as [|card cards IH]; [done|].
        rewrite (Hcards card) by (by left). simpl. apply IH.
        intros c Hc. apply Hcards. by right.
      + intros a Ha. by apply Hcards in Ha. }
  unfold get_ap_news_with_content.
  erewrite bind_Return.
  2:{ rewrite get_ap_news_list_selenium_outcome, Hedge, Hsearch, Hcollect.
      reflexivity. }
  reflexivity.
Qed.

Lemma get_ap_news_with_content_nothing_found_witness :
  get_ap_news_with_content example_web (str "award") 0 fresh_world
  = (Return [], printing fresh_world [ApNothingFound]).
Proof.
  apply (get_ap_news_with_content_nothing_found example_web (str "award") 0
           fresh_world _ eq_refl eq_refl).
  left. lia.
Defined.

(** X25. Whatever the web does, the fetcher touches no file and only adds
    lines to the console. *)
Theorem get_ap_news_with_content_effects web topic max_articles w :
  ∃ outcome lines,
    get_ap_news_with_content web topic max_articles w = (outcome, printing w lines).
Proof.
  unfold get_ap_news_with_content. unfold bind at 1.
  rewrite get_ap_news_list_selenium_outcome.
  destruct (match edge web with
            | Raise e => Raise e
            | Return _ =>
                match search web topic with
                | Raise e => Raise e
                | Return cards => collect_cards cards max_articles []
                end
            end) as [news_list|e].
  - destruct news_list as [|news news_list].
    + by eexists _, [_].
    + erewrite bind_Return by apply print_printing.
      match goal with
      | |- context [crawl_details web ?n 1 ?nl [] ?w0] =>
          destruct (crawl_details_world web n nl 1 [] w0) as (l & lines & Hl)
      end.
      rewrite Hl, printing_printing. by eexists _, _.
  - exists (Raise e), []. by rewrite printing_nil.
Qed.
